(** * Car maintenance tracker: the store of [car_maintenance_tracker.py]

    A shallow embedding of [TrackerStore] and of the Python values it
    handles, followed by the properties of the store operations.

    The store keeps one JSON document in memory ([self.data]) and writes
    it whole to [self.db_path] after every mutation.  The document is a
    dynamically typed Python value, so it is modelled as such: dicts are
    finite maps from strings, lists are lists, and an operation applied
    to a value of the wrong shape raises. *)

From Stdlib Require Import ZArith String Ascii Permutation Sorted OrderedTypeEx.
From stdpp Require Import gmap strings list fin_maps sorting.

Local Open Scope string_scope.
Local Open Scope list_scope.
Local Open Scope Z_scope.
Set Warnings "-register-all".

(** ** Python values *)

(** What [json.load] hands back, restricted to the shapes the storage
    format uses: integers, floats, strings, lists and dicts ([null] and
    the booleans are left out).  A string is its UTF-8 bytes.  A float
    is kept as its IEEE-754 binary64 bit pattern; the store only ever
    carries floats around (the [cost] of a service record). *)
Inductive value :=
| VInt (z : Z)
| VFloat (bits : Z)
| VStr (s : string)
| VList (l : list value)
| VDict (d : gmap string value).

(** The exceptions that can escape a store operation.  [Unmodelled]
    marks the places where Python's behaviour depends on float
    arithmetic, on [int()] applied to a string or a float, or on the
    order in which [list.sort] compares keys of mixed types; the
    embedding says nothing about those runs. *)
Inductive exc :=
| KeyError (key : string)
| TypeError
| AttributeError
| JSONDecodeError
| Unmodelled.

Inductive result (A : Type) :=
| Ok (a : A)
| Raise (e : exc).
Arguments Ok {A} a.
Arguments Raise {A} e.

#[global] Instance result_ret : MRet result := λ A a, Ok a.
#[global] Instance result_bind : MBind result := λ A B f m,
  match m with
  | Ok a => f a
  | Raise e => Raise e
  end.
#[global] Instance result_fmap : FMap result := λ A B f m,
  match m with
  | Ok a => Ok (f a)
  | Raise e => Raise e
  end.

(** The two [str] methods the store calls.  Their Unicode tables are
    part of the interpreter, not of the program, so they are an
    interface here; [ascii_str] below implements it for ASCII text. *)
Class PyStr := {
  str_strip : string → string;
  str_lower : string → string
}.

(** [v[key]] for a string key. *)
Definition py_getitem (v : value) (key : string) : result value :=
  match v with
  | VDict d =>
      match d !! key with
      | Some x => Ok x
      | None => Raise (KeyError key)
      end
  | _ => Raise TypeError
  end.

(** [for x in v]: the elements the loop visits.  A string yields its
    characters and a dict its keys; the loops of the store subscript
    each element with a string, which raises on any of those, so
    neither their number nor their order matters. *)
Definition py_iter (v : value) : result (list value) :=
  match v with
  | VList l => Ok l
  | VStr s => Ok ((λ c, VStr (String c EmptyString)) <$> list_ascii_of_string s)
  | VDict d => Ok (VStr <$> (map_to_list d).*1)
  | VInt _ | VFloat _ => Raise TypeError
  end.

(** [v.strip().lower()] *)
Definition py_strip_lower `{PyStr} (v : value) : result string :=
  match v with
  | VStr s => Ok (str_lower (str_strip s))
  | _ => Raise AttributeError
  end.

(** [a + b] *)
Definition py_add (a b : value) : result value :=
  match a, b with
  | VInt x, VInt y => Ok (VInt (x + y))
  | VStr x, VStr y => Ok (VStr (x ++ y)%string)
  | VList x, VList y => Ok (VList (x ++ y))
  | VFloat _, (VInt _ | VFloat _) | VInt _, VFloat _ => Raise Unmodelled
  | _, _ => Raise TypeError
  end.

(** [a - n] for an integer [n] *)
Definition py_sub_int (a : value) (n : Z) : result value :=
  match a with
  | VInt x => Ok (VInt (x - n))
  | VFloat _ => Raise Unmodelled
  | _ => Raise TypeError
  end.

(** [int(v)] *)
Definition py_int (v : value) : result Z :=
  match v with
  | VInt z => Ok z
  | VFloat _ | VStr _ => Raise Unmodelled
  | VList _ | VDict _ => Raise TypeError
  end.

(** ** [list.sort]

    [list.sort(key=..., reverse=...)] computes the key of every element
    first, then sorts on the keys with [<] only, and is stable.  The
    sort itself is written as an insertion sort, which uses [<] in the
    same way; [reverse=True] (the flag [descending]) reverses the list,
    sorts, and reverses the outcome, as CPython does to stay stable. *)
Section list_sort.
Context {K A : Type} (lt : K → K → bool).

Fixpoint insert_sorted (x : K * A) (l : list (K * A)) : list (K * A) :=
  match l with
  | [] => [x]
  | y :: l' => if lt y.1 x.1 then y :: insert_sorted x l' else x :: y :: l'
  end.

Fixpoint insertion_sort (l : list (K * A)) : list (K * A) :=
  match l with
  | [] => []
  | x :: l' => insert_sorted x (insertion_sort l')
  end.

(** [x] may stand before [y] in an ascending list. *)
Definition not_after (x y : K * A) : Prop := lt y.1 x.1 = false.

Definition sort_decorated (descending : bool) (l : list (K * A))
  : list (K * A) :=
  if descending then reverse (insertion_sort (reverse l))
  else insertion_sort l.
End list_sort.

Definition decorate {K} (keyf : value → result K) (l : list value)
  : result (list (K * value)) :=
  mapM (λ x, k ← keyf x; Ok (k, x)) l.

Definition py_sort {K} (keyf : value → result K) (lt : K → K → bool)
    (descending : bool) (l : list value) : result (list value) :=
  dec ← decorate keyf l;
  Ok ((sort_decorated lt descending dec).*2).

(** ** Domain model *)

Record ConsumablePart := {
  name : string;
  interval_km : Z;
  last_change_km : Z;
  notes : string
}.

Record ServiceRecord := {
  date : string;
  mileage_km : Z;
  title : string;
  details : string;
  cost : Z  (* binary64 bit pattern *)
}.

(** [dataclasses.asdict] *)
Definition asdict_part (part : ConsumablePart) : gmap string value :=
  <["name" := VStr (name part)]>
  (<["interval_km" := VInt (interval_km part)]>
  (<["last_change_km" := VInt (last_change_km part)]>
  (<["notes" := VStr (notes part)]> ∅))).

Definition asdict_record (record : ServiceRecord) : gmap string value :=
  <["date" := VStr (date record)]>
  (<["mileage_km" := VInt (mileage_km record)]>
  (<["title" := VStr (title record)]>
  (<["details" := VStr (details record)]>
  (<["cost" := VFloat (cost record)]> ∅)))).

(** ** The store *)

(** A file is represented by what [json.load] makes of its text: a
    document, or a decoding failure.  [json.dump] is taken to write a
    text that reads back as the document dumped. *)
Inductive file :=
| Json (doc : value)
| Malformed (text : string).

Abbreviation filesystem := (gmap string file).

Record TrackerStore := {
  db_path : string;
  data : value
}.

Definition default_data : value :=
  VDict (<["current_mileage_km" := VInt 0]>
        (<["parts" := VList []]>
        (<["service_history" := VList []]> ∅))).

Definition _load (path : string) (fs : filesystem) : result value :=
  match fs !! path with
  | None => Ok default_data
  | Some (Json doc) => Ok doc
  | Some (Malformed _) => Raise JSONDecodeError
  end.

(** [TrackerStore.__init__] *)
Definition TrackerStore_init (path : string) (fs : filesystem)
  : result TrackerStore :=
  doc ← _load path fs;
  Ok {| db_path := path; data := doc |}.

(** The write of [save] when it succeeds.  A write that fails (the
    [OSError] of [open], for a directory that does not exist, say) is
    not modelled: an operation that is [Ok] here is a run whose write
    went through. *)
Definition save (self : TrackerStore) (fs : filesystem) : filesystem :=
  <[db_path self := Json (data self)]> fs.

(** [self.data.get("current_mileage_km", 0)], then [int(...)]. *)
Definition current_mileage (self : TrackerStore) : result Z :=
  match data self with
  | VDict d => py_int (default (VInt 0) (d !! "current_mileage_km"))
  | _ => Raise AttributeError
  end.

(** [self.data[key] = v] *)
Definition set_data (self : TrackerStore) (key : string) (v : value)
  : result TrackerStore :=
  match data self with
  | VDict d => Ok {| db_path := db_path self; data := VDict (<[key := v]> d) |}
  | _ => Raise TypeError
  end.

Definition set_current_mileage (mileage_km : Z) (self : TrackerStore)
    (fs : filesystem) : result (TrackerStore * filesystem) :=
  self' ← set_data self "current_mileage_km" (VInt mileage_km);
  Ok (self', save self' fs).

Section store.
Context `{PyStr}.

(** [part["name"].strip().lower()] *)
Definition norm_name (part : value) : result string :=
  nm ← py_getitem part "name";
  py_strip_lower nm.

(** The loop of [find_part].  The part it returns is a reference into
    [self.data["parts"]]; here that reference is the index. *)
Fixpoint find_part_loop (lowered : string) (l : list value) (i : nat)
  : result (option nat) :=
  match l with
  | [] => Ok None
  | part :: l' =>
      s ← norm_name part;
      if decide (s = lowered) then Ok (Some i)
      else find_part_loop lowered l' (S i)
  end.

Definition find_part (self : TrackerStore) (name : string)
  : result (option nat) :=
  let lowered := str_lower (str_strip name) in
  parts ← py_getitem (data self) "parts";
  l ← py_iter parts;
  find_part_loop lowered l 0.

(** The dict a reference returned by [find_part] points to. *)
Definition part_at (parts : value) (i : nat) : result (gmap string value) :=
  match parts with
  | VList l =>
      match l !! i with
      | Some (VDict d) => Ok d
      | _ => Raise TypeError
      end
  | _ => Raise TypeError
  end.

(** Writing through such a reference. *)
Definition set_part_at (self : TrackerStore) (parts : value) (i : nat)
    (d : gmap string value) : result TrackerStore :=
  match parts with
  | VList l => set_data self "parts" (VList (<[i := VDict d]> l))
  | _ => Raise TypeError
  end.

(** [lst.append(x)] on [self.data[key]] *)
Definition append_to (self : TrackerStore) (key : string) (lst x : value)
  : result TrackerStore :=
  match lst with
  | VList l => set_data self key (VList (l ++ [x]))
  | _ => Raise AttributeError
  end.

Definition add_part (part : ConsumablePart) (self : TrackerStore)
    (fs : filesystem) : result (TrackerStore * filesystem) :=
  parts ← py_getitem (data self) "parts";
  existing ← find_part self (name part);
  self' ← match existing with
          | Some i =>
              d ← part_at parts i;
              (* existing.update(asdict(part)) *)
              set_part_at self parts i (asdict_part part ∪ d)
          | None => append_to self "parts" parts (VDict (asdict_part part))
          end;
  Ok (self', save self' fs).

Definition change_part (name : string) (mileage_km : Z) (notes : string)
    (self : TrackerStore) (fs : filesystem)
  : result (bool * TrackerStore * filesystem) :=
  part ← find_part self name;
  match part with
  | None => Ok (false, self, fs)
  | Some i =>
      parts ← py_getitem (data self) "parts";
      d ← part_at parts i;
      let d := <["last_change_km" := VInt mileage_km]> d in
      let d := if decide (notes = "") then d else <["notes" := VStr notes]> d in
      self' ← set_part_at self parts i d;
      Ok (true, self', save self' fs)
  end.

(** The key of [add_service_record]'s sort,
    [(x["mileage_km"], x["date"])], for an integer mileage and a
    string date. *)
Definition history_key (x : value) : result (Z * string) :=
  m ← py_getitem x "mileage_km";
  d ← py_getitem x "date";
  match m, d with
  | VInt m, VStr d => Ok (m, d)
  | _, _ => Raise Unmodelled
  end.

(** [<] on such tuples: the first components decide unless they are
    equal; strings compare character by character (byte by byte here,
    which orders UTF-8 text as its code points do). *)
Definition history_lt (a b : Z * string) : bool :=
  if decide (a.1 = b.1) then String.ltb a.2 b.2 else Z.ltb a.1 b.1.

Definition add_service_record (record : ServiceRecord) (self : TrackerStore)
    (fs : filesystem) : result (TrackerStore * filesystem) :=
  history ← py_getitem (data self) "service_history";
  match history with
  | VList l =>
      let l := (l ++ [VDict (asdict_record record)])%list in
      sorted ← py_sort history_key history_lt true l;
      self' ← set_data self "service_history" (VList sorted);
      Ok (self', save self' fs)
  | _ => Raise AttributeError
  end.

(** The body of the loop of [due_parts]. *)
Definition due_item (current : Z) (part : value) : result value :=
  lc ← py_getitem part "last_change_km";
  iv ← py_getitem part "interval_km";
  due_at ← py_add lc iv;
  remaining ← py_sub_int due_at current;
  match part with
  | VDict d =>
      Ok (VDict (<["remaining_km" := remaining]> (<["due_at_km" := due_at]> d)))
  | _ => Raise TypeError
  end.

Definition remaining_key (x : value) : result Z :=
  r ← py_getitem x "remaining_km";
  match r with
  | VInt z => Ok z
  | _ => Raise Unmodelled
  end.

Definition due_parts (at_mileage : option Z) (self : TrackerStore)
    (fs : filesystem) : result (list value * TrackerStore * filesystem) :=
  current ← match at_mileage with
            | None => current_mileage self
            | Some m => Ok m
            end;
  parts ← py_getitem (data self) "parts";
  l ← py_iter parts;
  results ← mapM (due_item current) l;
  sorted ← py_sort remaining_key Z.ltb false results;
  Ok (sorted, self, fs).

(** A run of [add_service_record] calls, one per record. *)
Fixpoint add_service_records (records : list ServiceRecord)
    (self : TrackerStore) (fs : filesystem)
  : result (TrackerStore * filesystem) :=
  match records with
  | [] => Ok (self, fs)
  | record :: records' =>
      '(self', fs') ← add_service_record record self fs;
      add_service_records records' self' fs'
  end.
End store.

(** ** [str.strip] and [str.lower] on ASCII text *)

(** The ASCII characters [str.isspace] accepts: tab to carriage return,
    the four separators 28 to 31, and the space. *)
Definition is_space (c : ascii) : bool :=
  let n := N_of_ascii c in
  ((9 <=? n) && (n <=? 13) || (28 <=? n) && (n <=? 32))%N.

Fixpoint lstrip_chars (l : list ascii) : list ascii :=
  match l with
  | c :: l' => if is_space c then lstrip_chars l' else l
  | [] => []
  end.

Definition ascii_strip (s : string) : string :=
  string_of_list_ascii
    (rev (lstrip_chars (rev (lstrip_chars (list_ascii_of_string s))))).

Definition lower_char (c : ascii) : ascii :=
  let n := N_of_ascii c in
  if ((65 <=? n) && (n <=? 90))%N then ascii_of_N (n + 32) else c.

Fixpoint ascii_lower (s : string) : string :=
  match s with
  | EmptyString => EmptyString
  | String c s' => String (lower_char c) (ascii_lower s')
  end.

#[global] Instance ascii_str : PyStr := {|
  str_strip := ascii_strip;
  str_lower := ascii_lower
|}.

(** ** Vocabulary of the specification *)

(** The normalized form of a part name: trimmed, then lower-cased. *)
Definition normalize `{PyStr} (s : string) : string := str_lower (str_strip s).

(** [v] is a part (a dict) stored under the name [s]. *)
Definition part_named (v : value) (s : string) : Prop :=
  ∃ d, v = VDict d ∧ d !! "name" = Some (VStr s).

(** No stored part goes by the normalized name of [nm]. *)
Definition no_part_named `{PyStr} (nm : string) (l : list value) : Prop :=
  Forall (λ v, ∃ s, part_named v s ∧ normalize s ≠ normalize nm) l.

(** [find_part] walks past [v]: it has a normalized name, another one
    than [lowered]. *)
Definition other_name `{PyStr} (lowered : string) (v : value) : Prop :=
  ∃ s, norm_name v = Ok s ∧ s ≠ lowered.


(** The integer stored under [key] in the dict [v], if there is one. *)
Definition int_field (key : string) (v : value) : option Z :=
  match v with
  | VDict d =>
      match d !! key with
      | Some (VInt z) => Some z
      | _ => None
      end
  | _ => None
  end.

(** A stored part whose two mileage fields are integers. *)
Definition typed_part (v : value) : Prop :=
  is_Some (int_field "last_change_km" v) ∧ is_Some (int_field "interval_km" v).

(** [due_at_km = last_change_km + interval_km] and
    [remaining_km = due_at_km - reference], as the specification
    defines the view of a part. *)
Definition due_at_of (v : value) : Z :=
  default 0 (int_field "last_change_km" v) + default 0 (int_field "interval_km" v).

Definition remaining_of (reference : Z) (v : value) : Z :=
  due_at_of v - reference.

Definition view_of (reference : Z) (v : value) : value :=
  match v with
  | VDict d =>
      VDict (<["remaining_km" := VInt (remaining_of reference v)]>
            (<["due_at_km" := VInt (due_at_of v)]> d))
  | _ => v
  end.

(** The four fields of a [ConsumablePart]. *)
Definition part_fields : list string :=
  ["name"; "interval_km"; "last_change_km"; "notes"].

(** A part as it would read had the default of the optional field
    [notes] been filled in. *)
Definition with_default_notes (v : value) : value :=
  match v with
  | VDict d =>
      match d !! "notes" with
      | None => VDict (<["notes" := VStr ""]> d)
      | Some _ => v
      end
  | _ => v
  end.

(** A record as it would read had the defaults of [details] and [cost]
    been filled in ([0] is the bit pattern of [0.0]). *)
Definition with_default_details_cost (v : value) : value :=
  match v with
  | VDict d =>
      let d := match d !! "details" with
               | None => <["details" := VStr ""]> d
               | Some _ => d
               end in
      let d := match d !! "cost" with
               | None => <["cost" := VFloat 0]> d
               | Some _ => d
               end in
      VDict d
  | _ => v
  end.

(** The whole document with those defaults filled in. *)
Definition with_defaults (doc : value) : value :=
  match doc with
  | VDict d =>
      let d := match d !! "parts" with
               | Some (VList l) =>
                   <["parts" := VList (with_default_notes <$> l)]> d
               | _ => d
               end in
      let d := match d !! "service_history" with
               | Some (VList l) =>
                   <["service_history" := VList (with_default_details_cost <$> l)]> d
               | _ => d
               end in
      VDict d
  | _ => doc
  end.

(** Two neighbours of a sorted result, by the key [list.sort] used:
    ascending with [reverse=False], descending with [reverse=True]
    (the flag [descending]). *)
Definition in_order {K} (keyf : value → result K) (lt : K → K → bool)
    (descending : bool) (a b : value) : Prop :=
  ∃ ka kb, keyf a = Ok ka ∧ keyf b = Ok kb ∧
    (if descending then lt ka kb else lt kb ka) = false.

#[global] Instance exc_eq_dec : EqDecision exc.
Proof. solve_decision. Defined.

#[global] Instance result_eq_dec `{EqDecision A} : EqDecision (result A).
Proof. solve_decision. Defined.

(** The elements of [l] whose sort key is [k], in the order of [l]. *)
Definition with_key {K} `{EqDecision K} (keyf : value → result K) (k : K)
    (l : list value) : list value :=
  filter (λ x, keyf x = Ok k) l.

(** Ascending by the stored [remaining_km]. *)
Definition remaining_le (a b : value) : Prop :=
  ∃ ra rb, int_field "remaining_km" a = Some ra ∧
    int_field "remaining_km" b = Some rb ∧ ra ≤ rb.

(** Descending by [(mileage_km, date)]: the higher mileage first, and
    at equal mileage the date that is not the smaller string first. *)
Definition history_ge (a b : value) : Prop :=
  ∃ ma da mb db,
    history_key a = Ok (ma, da) ∧ history_key b = Ok (mb, db) ∧
    (mb < ma ∨ (mb = ma ∧ String.ltb da db = false)).

(** The dicts [add_service_record] appends for a run of records. *)
Definition record_values (records : list ServiceRecord) : list value :=
  (λ record, VDict (asdict_record record)) <$> records.

(** ** Sample data *)

Definition oil_filter : ConsumablePart :=
  {| name := "oil filter"; interval_km := 10000; last_change_km := 5000;
     notes := "" |}.

Definition brake_pads : ConsumablePart :=
  {| name := "Brake Pads"; interval_km := 30000; last_change_km := 0;
     notes := "front axle" |}.

Definition service_jan : ServiceRecord :=
  {| date := "2024-01-01"; mileage_km := 10000; title := "oil change";
     details := ""; cost := 0 |}.

Definition service_feb : ServiceRecord :=
  {| date := "2024-02-01"; mileage_km := 12000; title := "brakes";
     details := ""; cost := 0 |}.

(** Two parts due at the same mileage, 30000. *)
Definition cabin_filter : ConsumablePart :=
  {| name := "cabin filter"; interval_km := 15000; last_change_km := 15000;
     notes := "" |}.

Definition sample_parts : list value :=
  [VDict (asdict_part brake_pads); VDict (asdict_part oil_filter);
   VDict (asdict_part cabin_filter)].

Definition sample_dict : gmap string value :=
  <["current_mileage_km" := VInt 14000]>
  (<["parts" := VList sample_parts]>
  (<["service_history" := VList [VDict (asdict_record service_jan)]]> ∅)).

Definition sample_store : TrackerStore :=
  {| db_path := "car_maintenance_data.json"; data := VDict sample_dict |}.

(** The oil filter again, under another spelling of its name. *)
Definition oil_filter_renewed : ConsumablePart :=
  {| name := " OIL FILTER"; interval_km := 12000; last_change_km := 14000;
     notes := "long-life" |}.

Definition empty_store : TrackerStore :=
  {| db_path := "car_maintenance_data.json"; data := default_data |}.

(** A part written by hand: no [notes], one key the program does not
    know. *)
Definition bare_part : gmap string value :=
  <["name" := VStr "wipers"]>
  (<["interval_km" := VInt 20000]>
  (<["last_change_km" := VInt 1000]>
  (<["vendor" := VStr "acme"]> ∅))).

(** A record written by hand, without [details] and [cost]. *)
Definition bare_record : gmap string value :=
  <["date" := VStr "2023-11-05"]>
  (<["mileage_km" := VInt 9000]>
  (<["title" := VStr "inspection"]> ∅)).

Definition bare_doc : value :=
  VDict (<["current_mileage_km" := VInt 14000]>
        (<["parts" := VList [VDict bare_part]]>
        (<["service_history" := VList [VDict bare_record]]>
        (<["schema" := VInt 2]> ∅)))).

(** [doc[section][i].get(key)], for looking into a document. *)
Definition entry_field (doc : value) (section : string) (i : nat)
    (key : string) : option value :=
  match doc with
  | VDict d =>
      match d !! section with
      | Some (VList l) =>
          match l !! i with
          | Some (VDict e) => e !! key
          | _ => None
          end
      | _ => None
      end
  | _ => None
  end.

(** [views[i].get(key)] on what [due_parts] returned. *)
Definition view_field (r : result (list value * TrackerStore * filesystem))
    (i : nat) (key : string) : option value :=
  match r with
  | Ok (views, _, _) =>
      match views !! i with
      | Some (VDict v) => v !! key
      | _ => None
      end
  | Raise _ => None
  end.

Definition bare_fs : filesystem := {[ "db.json" := Json bare_doc ]}.

Definition outcome_data {A} (r : result (A * TrackerStore * filesystem))
  : option value :=
  match r with
  | Ok (_, self, _) => Some (data self)
  | Raise _ => None
  end.

(** ** Calls *)

(** A call of one of the four methods that change the store, with its
    arguments. *)
Inductive call :=
| SetCurrentMileage (km : Z)
| AddPart (part : ConsumablePart)
| ChangePart (nm : string) (km : Z) (text : string)
| AddServiceRecord (record : ServiceRecord).

(** Making the call; the boolean of [change_part] is dropped. *)
Definition do_call `{PyStr} (c : call) (self : TrackerStore) (fs : filesystem)
  : result (TrackerStore * filesystem) :=
  match c with
  | SetCurrentMileage km => set_current_mileage km self fs
  | AddPart part => add_part part self fs
  | ChangePart nm km text =>
      '(_, self', fs') ← change_part nm km text self fs; Ok (self', fs')
  | AddServiceRecord record => add_service_record record self fs
  end.


(** The top-level key of the document a call writes under. *)
Definition touched (c : call) : string :=
  match c with
  | SetCurrentMileage _ => "current_mileage_km"
  | AddPart _ | ChangePart _ _ _ => "parts"
  | AddServiceRecord _ => "service_history"
  end.


(** What [change_part] leaves of the part [p] it found. *)
Definition changed_part (km : Z) (text : string) (p : gmap string value)
  : gmap string value :=
  let d := <["last_change_km" := VInt km]> p in
  if decide (text = "") then d else <["notes" := VStr text]> d.


(** The parts in ascending order of [due_at_km], those of equal
    [due_at_km] in stored order. *)
Definition by_due_at (l : list value) : list value :=
  (insertion_sort Z.ltb ((λ p, (due_at_of p, p)) <$> l)).*2.

(** [sample_store] after [add_part oil_filter_renewed]. *)
Definition sample_store_renewed : TrackerStore :=
  {| db_path := db_path sample_store;
     data := VDict (<["parts" := VList
       [VDict (asdict_part brake_pads);
        VDict (asdict_part oil_filter_renewed ∪ asdict_part oil_filter);
        VDict (asdict_part cabin_filter)]]> sample_dict) |}.

(** A store whose second record and second part were written by hand. *)
Definition torn_dict (record part : gmap string value) : gmap string value :=
  <["current_mileage_km" := VInt 5]>
  (<["parts" := VList ([VDict (asdict_part oil_filter)]
                       ++ VDict part :: [])]>
  (<["service_history" := VList ([VDict (asdict_record service_jan)]
                                 ++ VDict record :: [])]> ∅)).

Definition torn_store (record part : gmap string value) : TrackerStore :=
  {| db_path := "db.json"; data := VDict (torn_dict record part) |}.

(** Entries with no mileage at all, and entries short of their second
    required key. *)
Definition untitled_record : gmap string value := <["title" := VStr "wash"]> ∅.

Definition undated_record : gmap string value := <["mileage_km" := VInt 7]> ∅.

Definition unnamed_part : gmap string value := <["name" := VStr "belt"]> ∅.

Definition open_part : gmap string value := <["last_change_km" := VInt 7]> ∅.

Definition service_mar : ServiceRecord :=
  {| date := "2024-03-01"; mileage_km := 12000; title := "tyres";
     details := "rotation"; cost := 0 |}.

(** A second service on the day and at the mileage of [service_feb]. *)
Definition service_feb_again : ServiceRecord :=
  {| date := "2024-02-01"; mileage_km := 12000; title := "bulbs";
     details := ""; cost := 0 |}.

(** A store with no document keys at all. *)
Definition hollow_store : TrackerStore :=
  {| db_path := "db.json"; data := VDict ∅ |}.

(** Unfolding the binds of the result monad in a goal. *)
Ltac step := cbn [mbind result_bind mret result_ret].

(** * Properties *)

(** ** The result monad *)

Lemma bind_Ok_inv {A B} (f : A → result B) (m : result A) (b : B) :
  (m ≫= f) = Ok b → ∃ a, m = Ok a ∧ f a = Ok b.
Proof. destruct m as [a|e]; [eauto | discriminate]. Qed.

Lemma mapM_Ok_fmap {A B} (f : A → result B) (g : A → B) (l : list A) :
  Forall (λ x, f x = Ok (g x)) l → mapM f l = Ok (g <$> l).
Proof.
  induction 1 as [|x l Hx _ IH]; [reflexivity|].
  cbn. rewrite Hx. cbn. rewrite IH. reflexivity.
Qed.

(** ** Insertion sort on decorated lists *)

Lemma StronglySorted_mono {A} (R R' : relation A) (l : list A) :
  (∀ a b, R a b → R' a b) → StronglySorted R l → StronglySorted R' l.
Proof.
  intros HR. induction 1 as [|x l _ IH Hx]; constructor; [done|].
  eapply Forall_impl; [exact Hx|]. auto.
Qed.

Section sort_facts.
Context {K A : Type} (lt : K → K → bool).
Implicit Types (x y : K * A) (l : list (K * A)).

Hypothesis lt_irrefl : ∀ k, lt k k = false.
Hypothesis lt_asym : ∀ a b, lt a b = true → lt b a = false.
Hypothesis le_trans : ∀ a b c,
  lt b a = false → lt c b = false → lt c a = false.

Lemma insert_sorted_Permutation x l : insert_sorted lt x l ≡ₚ x :: l.
Proof.
  induction l as [|y l IH]; cbn; [done|].
  destruct (lt y.1 x.1); [|done].
  rewrite IH. apply Permutation_swap.
Qed.

Lemma insertion_sort_Permutation l : insertion_sort lt l ≡ₚ l.
Proof.
  induction l as [|x l IH]; cbn; [done|].
  by rewrite insert_sorted_Permutation, IH.
Qed.

Lemma insert_sorted_StronglySorted x l :
  StronglySorted (not_after lt) l → StronglySorted (not_after lt) (insert_sorted lt x l).
Proof.
  induction 1 as [|y l Hl IH Hy]; cbn.
  - repeat constructor.
  - destruct (lt y.1 x.1) eqn:Hyx.
    + constructor; [done|].
      rewrite insert_sorted_Permutation. constructor; [|done].
      by apply lt_asym.
    + constructor; [by constructor|].
      constructor; [done|].
      eapply Forall_impl; [exact Hy|].
      intros z Hz. unfold not_after in *. eauto.
Qed.

Lemma insertion_sort_StronglySorted l :
  StronglySorted (not_after lt) (insertion_sort lt l).
Proof.
  induction l; cbn; [constructor|].
  by apply insert_sorted_StronglySorted.
Qed.

Context `{EqDecision K}.

(** Stability: the elements of any one key keep their order. *)
Lemma insert_sorted_stable k x l :
  filter (λ y, y.1 = k) (insert_sorted lt x l) = filter (λ y, y.1 = k) (x :: l).
Proof.
  induction l as [|y l IH]; [done|].
  simpl insert_sorted.
  destruct (lt y.1 x.1) eqn:Hyx; [|done].
  assert (y.1 ≠ x.1) as Hne by (intros Heq; rewrite Heq, lt_irrefl in Hyx; done).
  rewrite (filter_cons _ y), IH, !(filter_cons _ x), !(filter_cons _ y).
  repeat case_decide; congruence.
Qed.

Lemma insertion_sort_stable k l :
  filter (λ y, y.1 = k) (insertion_sort lt l) = filter (λ y, y.1 = k) l.
Proof.
  induction l as [|x l IH]; [done|].
  simpl insertion_sort.
  rewrite insert_sorted_stable, !(filter_cons _ x), IH. done.
Qed.

Lemma sort_decorated_Permutation (desc : bool) l : sort_decorated lt desc l ≡ₚ l.
Proof.
  destruct desc; cbn.
  - by rewrite reverse_Permutation, insertion_sort_Permutation,
      reverse_Permutation.
  - apply insertion_sort_Permutation.
Qed.

Lemma sort_decorated_stable (desc : bool) k l :
  filter (λ y, y.1 = k) (sort_decorated lt desc l) = filter (λ y, y.1 = k) l.
Proof.
  destruct desc; cbn.
  - by rewrite filter_reverse, insertion_sort_stable, filter_reverse,
      reverse_involutive.
  - apply insertion_sort_stable.
Qed.

Lemma StronglySorted_reverse (R : relation (K * A)) l :
  StronglySorted R l → StronglySorted (flip R) (reverse l).
Proof.
  induction 1 as [|x l Hl IH Hx]; [constructor|].
  rewrite reverse_cons. apply StronglySorted_app_2.
  - intros y z Hy ->%list_elem_of_singleton.
    rewrite elem_of_reverse in Hy. rewrite Forall_forall in Hx.
    unfold flip. auto.
  - exact IH.
  - repeat constructor.
Qed.

Lemma sort_decorated_StronglySorted (desc : bool) l :
  StronglySorted
    (λ x y, (if desc then lt x.1 y.1 else lt y.1 x.1) = false)
    (sort_decorated lt desc l).
Proof.
  destruct desc; cbn.
  - apply (StronglySorted_reverse (not_after lt)), insertion_sort_StronglySorted.
  - apply insertion_sort_StronglySorted.
Qed.
End sort_facts.

(** ** [list.sort] on values *)

Section py_sort_facts.
Context {K : Type} `{EqDecision K}.
Context (keyf : value → result K) (lt : K → K → bool).
Implicit Types (l : list value) (dec : list (K * value)).

Hypothesis lt_irrefl : ∀ k, lt k k = false.
Hypothesis lt_asym : ∀ a b, lt a b = true → lt b a = false.
Hypothesis le_trans : ∀ a b c,
  lt b a = false → lt c b = false → lt c a = false.

(** Every pair carries the key of its element. *)
Local Abbreviation keyed dec := (Forall (λ p, keyf p.2 = Ok p.1) dec).

Lemma decorate_Ok l :
  Forall (λ x, ∃ k, keyf x = Ok k) l →
  ∃ dec, decorate keyf l = Ok dec ∧ dec.*2 = l ∧ keyed dec.
Proof.
  induction 1 as [|x l [k Hk] _ (dec & Hdec & Hl & Hkeyed)].
  - exists []. repeat split. constructor.
  - exists ((k, x) :: dec). unfold decorate in *. cbn.
    rewrite Hk. cbn. rewrite Hdec. cbn. repeat split.
    + by rewrite Hl.
    + by constructor.
Qed.

Lemma with_key_keyed k dec :
  keyed dec → with_key keyf k (dec.*2) = (filter (λ p, p.1 = k) dec).*2.
Proof.
  unfold with_key.
  induction 1 as [|[k' x] dec Hx _ IH]; [done|].
  cbn [fmap list_fmap snd fst] in *.
  rewrite (filter_cons _ x), (filter_cons _ (k', x)), IH.
  cbn [fst snd] in *. rewrite Hx.
  repeat case_decide; simplify_eq; done.
Qed.

Lemma in_order_keyed (desc : bool) dec :
  keyed dec →
  StronglySorted (λ x y, (if desc then lt x.1 y.1 else lt y.1 x.1) = false) dec →
  StronglySorted (in_order keyf lt desc) (dec.*2).
Proof.
  intros Hkeyed. induction 1 as [|p dec Hdec IH Hp]; [constructor|].
  apply Forall_cons in Hkeyed as [Hk Hkeyed].
  cbn. constructor; [by apply IH|].
  apply Forall_fmap, Forall_forall. intros q Hq.
  rewrite Forall_forall in Hp, Hkeyed.
  exists p.1, q.1. repeat split; auto.
Qed.

(** What [list.sort] guarantees when every key can be computed: a
    permutation of the list, ordered by the keys, with the elements
    of equal keys in the order they had. *)
Lemma py_sort_spec (desc : bool) l :
  Forall (λ x, ∃ k, keyf x = Ok k) l →
  ∃ l', py_sort keyf lt desc l = Ok l' ∧
    l' ≡ₚ l ∧
    StronglySorted (in_order keyf lt desc) l' ∧
    ∀ k, with_key keyf k l' = with_key keyf k l.
Proof.
  intros (dec & Hdec & Hl & Hkeyed)%decorate_Ok.
  assert (keyed (sort_decorated lt desc dec)) as Hkeyed'.
  { by rewrite sort_decorated_Permutation. }
  exists ((sort_decorated lt desc dec).*2). unfold py_sort.
  rewrite Hdec. split; [done|]. split; [|split].
  - by rewrite sort_decorated_Permutation, Hl.
  - apply in_order_keyed; [done|].
    by apply sort_decorated_StronglySorted.
  - intros k. rewrite <-Hl, !with_key_keyed by done.
    by rewrite sort_decorated_stable.
Qed.
End py_sort_facts.

(** Sorting commutes with any change of the elements that leaves the
    keys alone. *)
Lemma insert_sorted_fmap {K A B} (lt : K → K → bool) (f : A → B) x l :
  insert_sorted lt (prod_map id f x) (prod_map id f <$> l)
  = prod_map id f <$> insert_sorted lt x l.
Proof.
  induction l as [|y l IH]; [done|].
  destruct x as [kx x], y as [ky y]. cbn in *.
  destruct (lt ky kx); cbn; [|done]. by rewrite <-IH.
Qed.

Lemma insertion_sort_fmap {K A B} (lt : K → K → bool) (f : A → B) l :
  insertion_sort lt (prod_map id f <$> l) = prod_map id f <$> insertion_sort lt l.
Proof.
  induction l as [|x l IH]; [done|].
  cbn. by rewrite IH, insert_sorted_fmap.
Qed.

(** ** The two orders the store sorts by *)

Lemma Zltb_irrefl (k : Z) : (k <? k)%Z = false.
Proof. apply Z.ltb_irrefl. Qed.

Lemma Zltb_asym (a b : Z) : (a <? b)%Z = true → (b <? a)%Z = false.
Proof. lia. Qed.

Lemma Zleb_trans (a b c : Z) :
  (b <? a)%Z = false → (c <? b)%Z = false → (c <? a)%Z = false.
Proof. lia. Qed.

Lemma string_ltb_lt a b : String.ltb a b = true ↔ String_as_OT.lt a b.
Proof.
  unfold String.ltb. rewrite <-String_as_OT.cmp_lt. unfold String_as_OT.cmp.
  destruct (String.compare a b); naive_solver.
Qed.

Lemma string_ltb_irrefl a : String.ltb a a = false.
Proof.
  apply not_true_is_false. rewrite string_ltb_lt.
  intros Hlt. by apply String_as_OT.lt_not_eq in Hlt.
Qed.

Lemma string_ltb_trans a b c :
  String.ltb a b = true → String.ltb b c = true → String.ltb a c = true.
Proof. rewrite !string_ltb_lt. apply String_as_OT.lt_trans. Qed.

Lemma string_ltb_asym a b : String.ltb a b = true → String.ltb b a = false.
Proof.
  intros Hab. apply not_true_is_false. intros Hba.
  pose proof (string_ltb_trans _ _ _ Hab Hba) as Haa.
  by rewrite string_ltb_irrefl in Haa.
Qed.

Lemma string_ltb_total a b :
  String.ltb a b = false → String.ltb b a = false → a = b.
Proof.
  unfold String.ltb. rewrite (String.compare_antisym b a).
  destruct (String.compare a b) eqn:Hc; cbn; try done.
  intros _ _. by apply String.compare_eq_iff.
Qed.

Lemma string_leb_trans a b c :
  String.ltb b a = false → String.ltb c b = false → String.ltb c a = false.
Proof.
  intros Hab Hbc. apply not_true_is_false. intros Hca.
  destruct (String.ltb a b) eqn:Hab'.
  - by rewrite (string_ltb_trans _ _ _ Hca Hab') in Hbc.
  - rewrite (string_ltb_total _ _ Hab' Hab) in Hca. by rewrite Hca in Hbc.
Qed.

Lemma history_lt_irrefl k : history_lt k k = false.
Proof.
  unfold history_lt. rewrite decide_True by done. apply string_ltb_irrefl.
Qed.

Lemma history_lt_asym a b : history_lt a b = true → history_lt b a = false.
Proof.
  unfold history_lt. repeat case_decide; try congruence.
  - apply string_ltb_asym.
  - lia.
Qed.

Lemma history_le_trans a b c :
  history_lt b a = false → history_lt c b = false → history_lt c a = false.
Proof.
  unfold history_lt. repeat case_decide; try lia.
  apply string_leb_trans.
Qed.

(** ** [due_parts] *)

Lemma typed_part_inv (p : value) :
  typed_part p →
  ∃ dp lc iv, p = VDict dp ∧
    dp !! "last_change_km" = Some (VInt lc) ∧
    dp !! "interval_km" = Some (VInt iv) ∧
    due_at_of p = lc + iv.
Proof.
  intros [[lc Hlc] [iv Hiv]]. unfold due_at_of. rewrite Hlc, Hiv.
  destruct p as [| | | |dp]; try discriminate. cbn in *.
  destruct (dp !! "last_change_km") as [[]|] eqn:E1; try discriminate.
  destruct (dp !! "interval_km") as [[]|] eqn:E2; try discriminate.
  simplify_eq. eauto 10.
Qed.

Lemma due_item_typed (reference : Z) (p : value) :
  typed_part p → due_item reference p = Ok (view_of reference p).
Proof.
  intros (dp & lc & iv & -> & Hlc & Hiv & Hdue)%typed_part_inv.
  unfold due_item, view_of, remaining_of. rewrite Hdue. cbn.
  rewrite Hlc. cbn. rewrite Hiv. reflexivity.
Qed.

Lemma remaining_key_view (reference : Z) (p : value) :
  typed_part p →
  remaining_key (view_of reference p) = Ok (remaining_of reference p).
Proof.
  intros (dp & lc & iv & -> & _)%typed_part_inv.
  unfold remaining_key. cbn. by rewrite lookup_insert_eq.
Qed.

Lemma remaining_key_int_field (v : value) (r : Z) :
  remaining_key v = Ok r ↔ int_field "remaining_km" v = Some r.
Proof.
  unfold remaining_key, int_field. destruct v as [| | | |d]; cbn; try done.
  destruct (d !! "remaining_km") as [[]|]; cbn; naive_solver.
Qed.

(** On typed parts [due_parts] is the sort of the views, and it hands
    the store and the files back as they were. *)
Lemma due_parts_eval (self : TrackerStore) (fs : filesystem)
    (at_mileage : option Z) (d : gmap string value) (l : list value) (cm : Z) :
  data self = VDict d →
  d !! "parts" = Some (VList l) →
  d !! "current_mileage_km" = Some (VInt cm) →
  Forall typed_part l →
  due_parts at_mileage self fs =
    (sorted ← py_sort remaining_key Z.ltb false
                (view_of (default cm at_mileage) <$> l);
     Ok (sorted, self, fs)).
Proof.
  intros Hd Hparts Hcm Htyped. unfold due_parts, current_mileage.
  rewrite Hd. cbn. rewrite Hcm, Hparts. cbn.
  assert (∀ reference,
    mapM (due_item reference) l = Ok (view_of reference <$> l)) as Hviews.
  { intros reference. apply mapM_Ok_fmap.
    eapply Forall_impl; [exact Htyped|]. apply due_item_typed. }
  destruct at_mileage as [m|]; cbn; by rewrite Hviews.
Qed.

Lemma views_keyed (reference : Z) (l : list value) :
  Forall typed_part l →
  Forall (λ x, ∃ k, remaining_key x = Ok k) (view_of reference <$> l).
Proof.
  intros Htyped. apply Forall_fmap. eapply Forall_impl; [exact Htyped|].
  intros p Hp. cbn. eauto using remaining_key_view.
Qed.

(** C1. For every stored list of parts with integer mileages and every
    reference mileage (the stored [current_mileage_km] when none is
    given), [due_parts] returns one view per part, the part with
    [due_at_km = last_change_km + interval_km] and
    [remaining_km = due_at_km - reference] added, sorted ascending by
    [remaining_km]; the store and the files are left as they were. *)
Theorem due_parts_views (self : TrackerStore) (fs : filesystem)
    (at_mileage : option Z) (d : gmap string value) (l : list value) (cm : Z) :
  data self = VDict d →
  d !! "parts" = Some (VList l) →
  d !! "current_mileage_km" = Some (VInt cm) →
  Forall typed_part l →
  let reference := default cm at_mileage in
  ∃ views,
    due_parts at_mileage self fs = Ok (views, self, fs) ∧
    views ≡ₚ view_of reference <$> l ∧
    StronglySorted remaining_le views ∧
    ∀ p, p ∈ l → ∃ dp lc iv,
      p = VDict dp ∧
      dp !! "last_change_km" = Some (VInt lc) ∧
      dp !! "interval_km" = Some (VInt iv) ∧
      view_of reference p =
        VDict (<["remaining_km" := VInt (lc + iv - reference)]>
              (<["due_at_km" := VInt (lc + iv)]> dp)).
Proof.
  intros Hd Hparts Hcm Htyped reference.
  destruct (py_sort_spec remaining_key Z.ltb Zltb_irrefl Zltb_asym Zleb_trans
              false _ (views_keyed reference l Htyped))
    as (views & Hsort & Hperm & Hsorted & _).
  exists views. split; [|split; [|split]].
  - rewrite (due_parts_eval self fs at_mileage d l cm) by done.
    fold reference. by rewrite Hsort.
  - done.
  - eapply StronglySorted_mono; [|exact Hsorted].
    intros a b (ka & kb & Ha & Hb & Hle).
    exists ka, kb. rewrite <-!remaining_key_int_field. repeat split; [done..|lia].
  - intros p Hp. rewrite Forall_forall in Htyped.
    destruct (typed_part_inv p (Htyped p Hp))
      as (dp & lc & iv & -> & Hlc & Hiv & Hdue).
    exists dp, lc, iv. repeat split; try done.
    unfold view_of, remaining_of. by rewrite Hdue.
Qed.

Lemma due_parts_views_witness :
  ∃ views,
    due_parts None sample_store ∅ = Ok (views, sample_store, ∅) ∧
    views ≡ₚ view_of 14000 <$> sample_parts ∧
    StronglySorted remaining_le views ∧
    ∀ p, p ∈ sample_parts → ∃ dp lc iv,
      p = VDict dp ∧
      dp !! "last_change_km" = Some (VInt lc) ∧
      dp !! "interval_km" = Some (VInt iv) ∧
      view_of 14000 p =
        VDict (<["remaining_km" := VInt (lc + iv - 14000)]>
              (<["due_at_km" := VInt (lc + iv)]> dp)).
Proof.
  apply (due_parts_views sample_store ∅ None sample_dict sample_parts 14000).
  - reflexivity.
  - reflexivity.
  - reflexivity.
  - repeat constructor; vm_compute; eauto.
Defined.

Lemma with_key_views (reference r : Z) (l : list value) :
  Forall typed_part l →
  with_key remaining_key r (view_of reference <$> l)
  = view_of reference <$> filter (λ p, remaining_of reference p = r) l.
Proof.
  unfold with_key. induction 1 as [|p l Hp _ IH]; [done|].
  rewrite fmap_cons, (filter_cons _ (view_of reference p)), (filter_cons _ p), IH.
  rewrite (remaining_key_view reference p Hp).
  repeat case_decide; simplify_eq; done.
Qed.

(** C10. Parts whose [remaining_km] are equal come out of [due_parts]
    in the order they have in [parts]: for every value [r], the views
    with [remaining_km = r] are the views of the parts with that
    remaining distance, in stored order. *)
Theorem due_parts_stable (self : TrackerStore) (fs : filesystem)
    (at_mileage : option Z) (d : gmap string value) (l : list value) (cm : Z) :
  data self = VDict d →
  d !! "parts" = Some (VList l) →
  d !! "current_mileage_km" = Some (VInt cm) →
  Forall typed_part l →
  let reference := default cm at_mileage in
  ∃ views,
    due_parts at_mileage self fs = Ok (views, self, fs) ∧
    ∀ r, filter (λ v, int_field "remaining_km" v = Some r) views
         = view_of reference <$> filter (λ p, remaining_of reference p = r) l.
Proof.
  intros Hd Hparts Hcm Htyped reference.
  destruct (py_sort_spec remaining_key Z.ltb Zltb_irrefl Zltb_asym Zleb_trans
              false _ (views_keyed reference l Htyped))
    as (views & Hsort & _ & _ & Hstable).
  exists views. split.
  - rewrite (due_parts_eval self fs at_mileage d l cm) by done.
    fold reference. by rewrite Hsort.
  - intros r. rewrite <-with_key_views, <-Hstable by done.
    apply list_filter_iff. intros v. by rewrite remaining_key_int_field.
Qed.

Lemma due_parts_stable_witness :
  ∃ views,
    due_parts (Some 20000) sample_store ∅ = Ok (views, sample_store, ∅) ∧
    ∀ r, filter (λ v, int_field "remaining_km" v = Some r) views
         = view_of 20000 <$> filter (λ p, remaining_of 20000 p = r) sample_parts.
Proof.
  apply (due_parts_stable sample_store ∅ (Some 20000) sample_dict
           sample_parts 14000).
  - reflexivity.
  - reflexivity.
  - reflexivity.
  - repeat constructor; vm_compute; eauto.
Defined.

(** ** [find_part] *)

Section find_part_facts.
Context `{PyStr}.
Implicit Types (l : list value) (i j : nat) (lowered s : string).

Lemma norm_name_named (v : value) s :
  part_named v s → norm_name v = Ok (normalize s).
Proof. intros (d & -> & Hs). unfold norm_name. cbn. by rewrite Hs. Qed.

(** The loop returns nothing exactly when every element has a
    normalized name and none is the one looked for. *)
Lemma find_part_loop_None lowered l i :
  find_part_loop lowered l i = Ok None ↔
  Forall (other_name lowered) l.
Proof.
  unfold other_name.
  revert i. induction l as [|x l IH]; intros i; cbn.
  - split; [constructor|done].
  - rewrite Forall_cons, <-(IH (S i)).
    destruct (norm_name x) as [s|e]; cbn.
    + case_decide as Hs.
      * split; [done|]. intros [(s' & [= <-] & Hne) _]. done.
      * split; [|by intros [_ ?]]. intros Hl. split; [eauto|done].
    + split; [done|]. intros [(s' & [=] & _) _].
Qed.

(** It returns an index exactly when the element there is the first
    whose normalized name is the one looked for. *)
Lemma find_part_loop_Some lowered l i j :
  find_part_loop lowered l i = Ok (Some j) ↔
  ∃ l1 x l2, l = l1 ++ x :: l2 ∧ j = (i + length l1)%nat ∧
    Forall (other_name lowered) l1 ∧
    norm_name x = Ok lowered.
Proof.
  unfold other_name.
  revert i. induction l as [|x l IH]; intros i; cbn.
  - split; [done|]. intros (l1 & y & l2 & Hl & _). by destruct l1.
  - destruct (norm_name x) as [s|e] eqn:Hx; cbn.
    + case_decide as Hs.
      * subst s. split.
        -- intros [= <-]. exists [], x, l. cbn. rewrite Nat.add_0_r.
           repeat split; [constructor|done].
        -- intros (l1 & y & l2 & Hl & -> & Hl1 & Hy).
           destruct l1 as [|z l1]; cbn in *; injection Hl as -> ->.
           ++ by rewrite Nat.add_0_r.
           ++ apply Forall_cons in Hl1 as [(s & Hs & Hne) _]. congruence.
      * rewrite IH. split.
        -- intros (l1 & y & l2 & -> & -> & Hl1 & Hy).
           exists (x :: l1), y, l2. cbn. repeat split; [lia| |done].
           constructor; eauto.
        -- intros (l1 & y & l2 & Hl & -> & Hl1 & Hy).
           destruct l1 as [|z l1]; cbn in *; injection Hl as -> ->.
           ++ congruence.
           ++ apply Forall_cons in Hl1 as [_ Hl1].
              exists l1, y, l2. repeat split; [lia|done..].
    + split; [done|]. intros (l1 & y & l2 & Hl & -> & Hl1 & Hy).
      destruct l1 as [|z l1]; cbn in *; injection Hl as -> ->.
      * congruence.
      * apply Forall_cons in Hl1 as [(s & Hs & _) _]. congruence.
Qed.

Lemma no_part_named_loop nm l :
  no_part_named nm l →
  Forall (other_name (normalize nm)) l.
Proof.
  intros Hno. eapply Forall_impl; [exact Hno|].
  intros v (s & Hv & Hne).
  exists (normalize s). split; [by apply norm_name_named|done].
Qed.

Lemma find_part_eval (self : TrackerStore) (d : gmap string value) l nm :
  data self = VDict d →
  d !! "parts" = Some (VList l) →
  find_part self nm = find_part_loop (normalize nm) l 0.
Proof. intros Hd Hl. unfold find_part. rewrite Hd. cbn. by rewrite Hl. Qed.

Lemma find_part_absent (self : TrackerStore) (d : gmap string value) l nm :
  data self = VDict d →
  d !! "parts" = Some (VList l) →
  no_part_named nm l →
  find_part self nm = Ok None.
Proof.
  intros Hd Hl Hno. rewrite (find_part_eval self d l) by done.
  by apply find_part_loop_None, no_part_named_loop.
Qed.

Lemma find_part_first (self : TrackerStore) (d p : gmap string value)
    (l1 l2 : list value) nm s :
  data self = VDict d →
  d !! "parts" = Some (VList (l1 ++ VDict p :: l2)) →
  no_part_named nm l1 →
  p !! "name" = Some (VStr s) →
  normalize s = normalize nm →
  find_part self nm = Ok (Some (length l1)).
Proof.
  intros Hd Hl Hno Hs Hnorm. rewrite (find_part_eval self d _) by done.
  apply find_part_loop_Some. exists l1, (VDict p), l2.
  repeat split; [by apply no_part_named_loop|].
  rewrite <-Hnorm. apply norm_name_named. by exists p.
Qed.
End find_part_facts.

(** ** Reading and writing through the document *)

Lemma data_getitem (self : TrackerStore) (d : gmap string value)
    (key : string) (v : value) :
  data self = VDict d → d !! key = Some v → py_getitem (data self) key = Ok v.
Proof. intros -> Hv. cbn. by rewrite Hv. Qed.

Lemma set_data_dict (self : TrackerStore) (d : gmap string value)
    (key : string) (v : value) :
  data self = VDict d →
  set_data self key v
  = Ok {| db_path := db_path self; data := VDict (<[key := v]> d) |}.
Proof. intros Hd. unfold set_data. by rewrite Hd. Qed.


Lemma part_at_middle (l1 l2 : list value) (p : gmap string value) :
  part_at (VList (l1 ++ VDict p :: l2)) (length l1) = Ok p.
Proof. unfold part_at. by rewrite list_lookup_middle. Qed.

Lemma insert_middle {A} (l1 l2 : list A) (x y : A) :
  <[length l1 := y]> (l1 ++ x :: l2) = l1 ++ y :: l2.
Proof.
  rewrite insert_app_r_alt by lia. by rewrite Nat.sub_diag.
Qed.

Lemma set_part_at_middle (self : TrackerStore) (d p' : gmap string value)
    (l1 l2 : list value) (x : value) :
  data self = VDict d →
  set_part_at self (VList (l1 ++ x :: l2)) (length l1) p'
  = Ok {| db_path := db_path self;
          data := VDict (<["parts" := VList (l1 ++ VDict p' :: l2)]> d) |}.
Proof.
  intros Hd. unfold set_part_at, set_data. by rewrite Hd, insert_middle.
Qed.

(** ** [change_part] *)

(** C4. When no stored part goes by the normalized form of the name,
    [change_part] returns [False] as an ordinary result, and both the
    store and the files are what they were: nothing is changed and
    nothing is written. *)
Theorem change_part_not_found `{PyStr} (self : TrackerStore) (fs : filesystem)
    (d : gmap string value) (l : list value) (nm : string) (km : Z)
    (notes : string) :
  data self = VDict d →
  d !! "parts" = Some (VList l) →
  no_part_named nm l →
  change_part nm km notes self fs = Ok (false, self, fs).
Proof.
  intros Hd Hl Hno. unfold change_part.
  by rewrite (find_part_absent self d l nm).
Qed.

Lemma change_part_not_found_witness :
  change_part "nonexistent" 100 "" sample_store ∅ = Ok (false, sample_store, ∅).
Proof.
  apply (change_part_not_found sample_store ∅ sample_dict sample_parts).
  - reflexivity.
  - reflexivity.
  - repeat constructor;
      (eexists; split; [eexists; split; reflexivity | vm_compute; discriminate]).
Defined.

(** C5. When the first part whose normalized name matches is [p],
    [change_part] returns [True], writes the store back, and leaves in
    [p]'s place a part [p'] with [last_change_km = km]; [p'] carries the
    given notes when they are not empty and the notes of [p] (or none,
    if [p] had none) when they are, and every other key as in [p]. *)
Theorem change_part_found `{PyStr} (self : TrackerStore) (fs : filesystem)
    (d p : gmap string value) (l1 l2 : list value) (nm s : string) (km : Z)
    (notes : string) :
  data self = VDict d →
  d !! "parts" = Some (VList (l1 ++ VDict p :: l2)) →
  no_part_named nm l1 →
  p !! "name" = Some (VStr s) →
  normalize s = normalize nm →
  ∃ p',
    let self' :=
      {| db_path := db_path self;
         data := VDict (<["parts" := VList (l1 ++ VDict p' :: l2)]> d) |} in
    change_part nm km notes self fs = Ok (true, self', save self' fs) ∧
    p' !! "last_change_km" = Some (VInt km) ∧
    (notes ≠ "" → p' !! "notes" = Some (VStr notes)) ∧
    (notes = "" → p' !! "notes" = p !! "notes") ∧
    ∀ k, k ≠ "last_change_km" → k ≠ "notes" → p' !! k = p !! k.
Proof.
  intros Hd Hl Hno Hs Hnorm.
  set (q := <["last_change_km" := VInt km]> p).
  exists (if decide (notes = "") then q else <["notes" := VStr notes]> q).
  split; [|split; [|split; [|split]]].
  - unfold change_part.
    rewrite (find_part_first self d p l1 l2 nm s) by done. step.
    rewrite (data_getitem self d _ _ Hd Hl). step.
    rewrite part_at_middle. step.
    by rewrite (set_part_at_middle self d) by done.
  - case_decide; subst q; by simplify_map_eq.
  - intros Hne. rewrite decide_False by done. by simplify_map_eq.
  - intros ->. rewrite decide_True by done. subst q. by simplify_map_eq.
  - intros k Hk1 Hk2. case_decide; subst q; by simplify_map_eq.
Qed.

Lemma change_part_found_witness :
  ∃ p',
    let self' :=
      {| db_path := db_path sample_store;
         data := VDict (<["parts" :=
           VList ([VDict (asdict_part brake_pads)] ++ VDict p'
                    :: [VDict (asdict_part cabin_filter)])]> sample_dict) |} in
    change_part "  OIL Filter " 15000 "" sample_store ∅
      = Ok (true, self', save self' ∅) ∧
    p' !! "last_change_km" = Some (VInt 15000) ∧
    ("" ≠ "" → p' !! "notes" = Some (VStr "")) ∧
    ("" = "" → p' !! "notes" = asdict_part oil_filter !! "notes") ∧
    ∀ k, k ≠ "last_change_km" → k ≠ "notes" →
      p' !! k = asdict_part oil_filter !! k.
Proof.
  apply (change_part_found sample_store ∅ sample_dict (asdict_part oil_filter)
           [VDict (asdict_part brake_pads)] [VDict (asdict_part cabin_filter)]
           "  OIL Filter " "oil filter" 15000 "").
  - reflexivity.
  - reflexivity.
  - repeat constructor;
      (eexists; split; [eexists; split; reflexivity | vm_compute; discriminate]).
  - reflexivity.
  - reflexivity.
Defined.

(** ** [add_part] *)

Lemma getitem_inv (v x : value) (key : string) :
  py_getitem v key = Ok x → ∃ d, v = VDict d ∧ d !! key = Some x.
Proof.
  destruct v as [| | | |d]; try discriminate. cbn.
  destruct (d !! key) eqn:Hk; [|discriminate]. intros [= ->]. eauto.
Qed.

Lemma asdict_part_fields (part : ConsumablePart) (k : string) :
  k ∈ part_fields → is_Some (asdict_part part !! k).
Proof.
  unfold part_fields, asdict_part. rewrite !elem_of_cons, elem_of_nil.
  intros [->|[->|[->|[->|[]]]]]; by simplify_map_eq.
Qed.



Section add_part_facts.
Context `{PyStr}.
Implicit Types (l : list value) (d p : gmap string value).

Lemma part_named_asdict (part : ConsumablePart) p :
  part_named (VDict (asdict_part part ∪ p)) (name part).
Proof.
  eexists. split; [done|]. apply lookup_union_Some_l.
  unfold asdict_part. by simplify_map_eq.
Qed.

Lemma add_part_replace (self : TrackerStore) (fs : filesystem) d p
    (l1 l2 : list value) (part : ConsumablePart) :
  data self = VDict d →
  d !! "parts" = Some (VList (l1 ++ VDict p :: l2)) →
  Forall (other_name (normalize (name part))) l1 →
  norm_name (VDict p) = Ok (normalize (name part)) →
  add_part part self fs =
    let self' :=
      {| db_path := db_path self;
         data := VDict (<["parts" :=
           VList (l1 ++ VDict (asdict_part part ∪ p) :: l2)]> d) |} in
    Ok (self', save self' fs).
Proof.
  intros Hd Hl Hl1 Hp. unfold add_part.
  rewrite (data_getitem self d _ _ Hd Hl). step.
  rewrite (find_part_eval self d _ _ Hd Hl).
  assert (find_part_loop (normalize (name part)) (l1 ++ VDict p :: l2) 0
          = Ok (Some (length l1))) as ->.
  { apply find_part_loop_Some. by exists l1, (VDict p), l2. }
  step. rewrite part_at_middle. step.
  by rewrite (set_part_at_middle self d) by done.
Qed.



End add_part_facts.



Lemma find_part_inv `{PyStr} (self : TrackerStore) (nm : string)
    (r : option nat) :
  find_part self nm = Ok r →
  ∃ d parts l0, data self = VDict d ∧ d !! "parts" = Some parts ∧
    py_iter parts = Ok l0 ∧ find_part_loop (normalize nm) l0 0 = Ok r.
Proof.
  unfold find_part. intros Hfind.
  apply bind_Ok_inv in Hfind as (parts & (d & Hd & Hparts)%getitem_inv & Hfind).
  apply bind_Ok_inv in Hfind as (l0 & Hiter & Hloop).
  by exists d, parts, l0.
Qed.

(** C9. Running [add_part] a second time with the same part changes
    nothing: the two calls in a row end as the first one does, in the
    store, in the files, and when the first call raises. *)
Theorem add_part_idempotent `{PyStr} (part : ConsumablePart)
    (self : TrackerStore) (fs : filesystem) :
  ('(self', fs') ← add_part part self fs; add_part part self' fs')
  = add_part part self fs.
Proof.
  destruct (add_part part self fs) as [[self1 fs1]|e] eqn:Hadd; [|done]. step.
  unfold add_part in Hadd.
  apply bind_Ok_inv in Hadd as (parts & (d' & Hd' & Hl')%getitem_inv & Hadd).
  apply bind_Ok_inv in Hadd as (existing & Hfind & Hadd).
  apply bind_Ok_inv in Hadd as (self' & Hself' & [= <- <-]).
  apply find_part_inv in Hfind as (d & parts' & l0 & Hd & Hl & Hiter & Hloop).
  assert (parts' = parts) as -> by congruence. clear d' Hd' Hl'.
  destruct existing as [i|].
  - apply bind_Ok_inv in Hself' as (p & Hp & Hset).
    destruct parts as [| | |l|]; try discriminate.
    injection Hiter as <-. unfold part_at in Hp.
    destruct (l !! i) as [[| | | |p0]|] eqn:Hi; try discriminate.
    injection Hp as ->.
    apply find_part_loop_Some in Hloop as (l1 & x & l2 & -> & -> & Hl1 & Hx).
    rewrite list_lookup_middle in Hi by done. injection Hi as ->.
    rewrite (set_part_at_middle self d) in Hset by done. injection Hset as <-.
    erewrite add_part_replace; [|done|apply lookup_insert_eq|done|].
    + cbn. rewrite (assoc_L (∪)), (idemp_L (∪)), insert_insert_eq.
      unfold save. cbn. by rewrite insert_insert_eq.
    + apply norm_name_named, part_named_asdict.
  - unfold append_to in Hself'.
    destruct parts as [| | |l|]; try discriminate.
    injection Hiter as <-.
    rewrite (set_data_dict self d) in Hself' by done. injection Hself' as <-.
    apply find_part_loop_None in Hloop.
    erewrite (add_part_replace _ _ _ (asdict_part part) l []);
      [|done|apply lookup_insert_eq|done|].
    + cbn. rewrite (idemp_L (∪)), insert_insert_eq.
      unfold save. cbn. by rewrite insert_insert_eq.
    + rewrite <-(map_union_empty (asdict_part part)).
      apply norm_name_named, part_named_asdict.
Qed.

(** ** [add_service_record] *)

Lemma history_key_asdict (record : ServiceRecord) :
  history_key (VDict (asdict_record record))
  = Ok (mileage_km record, date record).
Proof. reflexivity. Qed.


Section history_facts.
Implicit Types (h : list value) (d : gmap string value).

Local Abbreviation keyed h := (Forall (λ x, ∃ k, history_key x = Ok k) h).

(** One call: the new history is the stable descending sort of the
    old one with the record appended, and it is written back. *)
Lemma add_service_record_eval (record : ServiceRecord) (self : TrackerStore)
    (fs : filesystem) d h :
  data self = VDict d →
  d !! "service_history" = Some (VList h) →
  keyed h →
  ∃ h',
    let self' :=
      {| db_path := db_path self;
         data := VDict (<["service_history" := VList h']> d) |} in
    add_service_record record self fs = Ok (self', save self' fs) ∧
    h' ≡ₚ h ++ [VDict (asdict_record record)] ∧
    StronglySorted (in_order history_key history_lt true) h' ∧
    ∀ k, with_key history_key k h'
         = with_key history_key k (h ++ [VDict (asdict_record record)]).
Proof.
  intros Hd Hh Hkeyed.
  assert (keyed (h ++ [VDict (asdict_record record)])) as Hkeyed'.
  { apply Forall_app. split; [done|]. repeat constructor.
    eexists. apply history_key_asdict. }
  destruct (py_sort_spec history_key history_lt history_lt_irrefl
              history_lt_asym history_le_trans true _ Hkeyed')
    as (h' & Hsort & Hperm & Hsorted & Hstable).
  exists h'. split; [|done].
  unfold add_service_record.
  rewrite (data_getitem self d _ _ Hd Hh). step. rewrite Hsort. step.
  by rewrite (set_data_dict self d) by done.
Qed.

Lemma add_service_records_snoc (records : list ServiceRecord)
    (record : ServiceRecord) (self : TrackerStore) (fs : filesystem) :
  add_service_records (records ++ [record]) self fs
  = ('(self', fs') ← add_service_records records self fs;
     add_service_record record self' fs').
Proof.
  revert self fs. induction records as [|r records IH]; intros self fs; cbn.
  - by destruct (add_service_record record self fs) as [[??]|].
  - destruct (add_service_record r self fs) as [[self1 fs1]|]; [|done].
    step. apply IH.
Qed.

(** A run of calls, by induction on the calls made so far. *)
Lemma add_service_records_eval (records : list ServiceRecord)
    (self : TrackerStore) (fs : filesystem) d h :
  data self = VDict d →
  d !! "service_history" = Some (VList h) →
  keyed h →
  ∃ h' fs',
    let self' :=
      {| db_path := db_path self;
         data := VDict (<["service_history" := VList h']> d) |} in
    add_service_records records self fs = Ok (self', fs') ∧
    keyed h' ∧
    h' ≡ₚ h ++ record_values records ∧
    (∀ k, with_key history_key k h'
          = with_key history_key k (h ++ record_values records)) ∧
    (records = [] → fs' = fs) ∧
    (records ≠ [] →
       fs' = save self' fs ∧
       StronglySorted (in_order history_key history_lt true) h').
Proof.
  intros Hd Hh Hkeyed.
  induction records as [|record records IH] using rev_ind.
  - exists h, fs. cbn. rewrite insert_id by done. rewrite <-Hd.
    destruct self. rewrite !app_nil_r. done.
  - destruct IH as (h1 & fs1 & Hrun & Hkeyed1 & Hperm1 & Hstable1 & Hnil & Hcons).
    cbn in Hrun.
    destruct (add_service_record_eval record
                {| db_path := db_path self;
                   data := VDict (<["service_history" := VList h1]> d) |}
                fs1 (<["service_history" := VList h1]> d) h1 eq_refl
                (lookup_insert_eq _ _ _) Hkeyed1)
      as (h' & Hadd & Hperm & Hsorted & Hstable).
    cbv zeta in Hadd. cbn [db_path data] in Hadd.
    rewrite insert_insert_eq in Hadd.
    exists h'. eexists. cbv zeta.
    rewrite add_service_records_snoc, Hrun. step. rewrite Hadd.
    unfold record_values. rewrite fmap_app, (assoc_L (++)). cbn.
    split; [done|]. split; [|split; [|split; [|split]]].
    + rewrite Hperm, Forall_app, Forall_singleton. split; [done|].
      eexists. apply history_key_asdict.
    + by rewrite Hperm, Hperm1.
    + intros k. unfold with_key in *.
      rewrite Hstable, (filter_app _ h1), Hstable1.
      by rewrite <-filter_app.
    + intros Hnil'. by destruct records.
    + intros _. split; [|done].
      destruct records as [|r0 records].
      * by rewrite Hnil.
      * destruct Hcons as [-> _]; [done|].
        unfold save. cbn. by rewrite insert_insert_eq.
Qed.
End history_facts.



(** ** Loading *)

(** C6. With no file at the path the store starts from the empty
    default state: mileage 0, no parts, no history.  With a file that
    does not decode, creating the store raises the decoder's error. *)
Theorem load_missing_or_malformed (path : string) (fs : filesystem) :
  (fs !! path = None →
   TrackerStore_init path fs =
     Ok {| db_path := path;
           data := VDict (<["current_mileage_km" := VInt 0]>
                         (<["parts" := VList []]>
                         (<["service_history" := VList []]> ∅))) |}) ∧
  (∀ text, fs !! path = Some (Malformed text) →
   TrackerStore_init path fs = Raise JSONDecodeError).
Proof.
  unfold TrackerStore_init, _load. split.
  - by intros ->.
  - by intros text ->.
Qed.

Lemma load_missing_or_malformed_witness :
  TrackerStore_init "db.json" ∅ = Ok {| db_path := "db.json"; data := default_data |} ∧
  TrackerStore_init "db.json" {[ "db.json" := Malformed "{oops" ]}
    = Raise JSONDecodeError.
Proof.
  split.
  - apply (proj1 (load_missing_or_malformed "db.json" ∅)). reflexivity.
  - apply (proj2 (load_missing_or_malformed "db.json"
                    {[ "db.json" := Malformed "{oops" ]}) "{oops").
    reflexivity.
Defined.


(** ** Missing optional fields and unknown keys *)

Lemma decorate_fmap {K} (keyf : value → result K) (f : value → value)
    (l : list value) :
  (∀ x, keyf (f x) = keyf x) →
  decorate keyf (f <$> l)
  = fmap (M:=result) (fmap (M:=list) (prod_map id f)) (decorate keyf l).
Proof.
  intros Hkey. unfold decorate.
  induction l as [|x l IH]; [done|].
  cbn. rewrite Hkey. destruct (keyf x) as [k|e]; [|done]. cbn.
  rewrite IH. by destruct (mapM _ l).
Qed.

(** Sorting a list whose elements were changed without touching their
    keys is changing the elements of the sorted list. *)
Lemma py_sort_fmap {K} (keyf : value → result K) (lt : K → K → bool)
    (desc : bool) (f : value → value) (l : list value) :
  (∀ x, keyf (f x) = keyf x) →
  py_sort keyf lt desc (f <$> l)
  = fmap (M:=result) (fmap (M:=list) f) (py_sort keyf lt desc l).
Proof.
  intros Hkey. unfold py_sort. rewrite decorate_fmap by done.
  destruct (decorate keyf l) as [dec|e]; [|done]. cbn. f_equal.
  destruct desc; cbn.
  - rewrite <-fmap_reverse, insertion_sort_fmap, <-fmap_reverse.
    rewrite <-!list_fmap_compose. done.
  - rewrite insertion_sort_fmap, <-!list_fmap_compose. done.
Qed.

Lemma remaining_key_default (v : value) :
  remaining_key (with_default_notes v) = remaining_key v.
Proof.
  destruct v as [| | | |d]; try done. unfold with_default_notes.
  destruct (d !! "notes"); [done|].
  unfold remaining_key. cbn. by rewrite lookup_insert_ne.
Qed.

Lemma int_field_default (key : string) (v : value) :
  key ≠ "notes" → int_field key (with_default_notes v) = int_field key v.
Proof.
  intros Hkey. destruct v as [| | | |d]; try done. unfold with_default_notes.
  destruct (d !! "notes"); [done|]. cbn. by rewrite lookup_insert_ne.
Qed.

Lemma typed_part_default (p : value) :
  typed_part p → typed_part (with_default_notes p).
Proof. unfold typed_part. by rewrite !int_field_default. Qed.

(** The view of a part with the default filled in is the view of the
    part, with the default filled in. *)
Lemma view_of_default (reference : Z) (p : value) :
  view_of reference (with_default_notes p)
  = with_default_notes (view_of reference p).
Proof.
  destruct p as [| | | |d]; try done.
  unfold view_of, remaining_of, due_at_of.
  rewrite !int_field_default by done.
  unfold with_default_notes.
  rewrite !lookup_insert_ne by done.
  destruct (d !! "notes") eqn:Hnotes; [done|].
  f_equal. rewrite (insert_insert_ne _ "notes" "remaining_km") by done.
  by rewrite (insert_insert_ne _ "notes" "due_at_km") by done.
Qed.

(** C7, as the code has it.  Reading takes the document as it is
    stored: nothing is added to it and nothing is dropped, so unknown
    keys stay and a part without [notes] stays without.  [due_parts]
    does not read [notes]: on typed parts it returns, in the same order,
    the views it would return had the empty default been stored, each
    short of exactly that default. *)
Theorem load_keeps_document (path : string) (fs : filesystem)
    (d : gmap string value) (l : list value) (cm : Z) (at_mileage : option Z) :
  fs !! path = Some (Json (VDict d)) →
  d !! "parts" = Some (VList l) →
  d !! "current_mileage_km" = Some (VInt cm) →
  Forall typed_part l →
  let self := {| db_path := path; data := VDict d |} in
  let filled :=
    {| db_path := path;
       data := VDict (<["parts" := VList (with_default_notes <$> l)]> d) |} in
  TrackerStore_init path fs = Ok self ∧
  ∃ views,
    due_parts at_mileage self fs = Ok (views, self, fs) ∧
    views ≡ₚ view_of (default cm at_mileage) <$> l ∧
    due_parts at_mileage filled fs
      = Ok (with_default_notes <$> views, filled, fs).
Proof.
  intros Hfile Hparts Hcm Htyped self filled.
  split. { unfold TrackerStore_init, _load. by rewrite Hfile. }
  destruct (py_sort_spec remaining_key Z.ltb Zltb_irrefl Zltb_asym Zleb_trans
              false _ (views_keyed (default cm at_mileage) l Htyped))
    as (views & Hsort & Hperm & _).
  exists views. split; [|split; [done|]].
  - rewrite (due_parts_eval self fs at_mileage d l cm) by done.
    by rewrite Hsort.
  - rewrite (due_parts_eval filled fs at_mileage
               (<["parts" := VList (with_default_notes <$> l)]> d)
               (with_default_notes <$> l) cm); [|done| | |].
    + rewrite <-list_fmap_compose.
      rewrite (list_fmap_ext _ (with_default_notes ∘ view_of (default cm at_mileage)) l)
        by (intros; apply view_of_default).
      rewrite list_fmap_compose, py_sort_fmap by apply remaining_key_default.
      by rewrite Hsort.
    + apply lookup_insert_eq.
    + by rewrite lookup_insert_ne.
    + apply Forall_fmap. eapply Forall_impl; [exact Htyped|].
      apply typed_part_default.
Qed.

Lemma load_keeps_document_witness :
  let self := {| db_path := "db.json"; data := bare_doc |} in
  let filled :=
    {| db_path := "db.json";
       data := VDict (<["parts" := VList (with_default_notes <$> [VDict bare_part])]>
                       (<["current_mileage_km" := VInt 14000]>
                       (<["parts" := VList [VDict bare_part]]>
                       (<["service_history" := VList [VDict bare_record]]>
                       (<["schema" := VInt 2]> ∅))))) |} in
  TrackerStore_init "db.json" bare_fs = Ok self ∧
  ∃ views,
    due_parts None self bare_fs = Ok (views, self, bare_fs) ∧
    views ≡ₚ view_of (default 14000 None) <$> [VDict bare_part] ∧
    due_parts None filled bare_fs
      = Ok (with_default_notes <$> views, filled, bare_fs).
Proof.
  apply (load_keeps_document "db.json" bare_fs _ [VDict bare_part] 14000 None).
  - reflexivity.
  - reflexivity.
  - reflexivity.
  - repeat constructor; vm_compute; eauto.
Defined.

(** C7, as the specification words it, fails on [bare_doc], whose part
    has no [notes] and whose record has neither [details] nor [cost].
    The store loaded from it is not the document with the defaults
    filled in: the three keys are absent where the defaults would be
    the empty string and zero.  Nor does [due_parts] answer as it does
    on the document with the defaults: its view has no [notes]. *)
Lemma load_fills_no_defaults :
  ∃ self,
    TrackerStore_init "db.json" bare_fs = Ok self ∧
    data self ≠ with_defaults bare_doc ∧
    entry_field (data self) "parts" 0 "notes" = None ∧
    entry_field (with_defaults bare_doc) "parts" 0 "notes" = Some (VStr "") ∧
    entry_field (data self) "service_history" 0 "details" = None ∧
    entry_field (data self) "service_history" 0 "cost" = None ∧
    due_parts None self bare_fs
      ≠ due_parts None
          {| db_path := "db.json"; data := with_defaults bare_doc |} bare_fs ∧
    view_field (due_parts None self bare_fs) 0 "notes" = None.
Proof.
  exists {| db_path := "db.json"; data := bare_doc |}.
  split; [reflexivity|]. split; [|split; [|split; [|split; [|split; [|split]]]]].
  - intros Heq.
    apply (f_equal (λ doc, entry_field doc "parts" 0 "notes")) in Heq.
    vm_compute in Heq. discriminate.
  - vm_compute. reflexivity.
  - vm_compute. reflexivity.
  - vm_compute. reflexivity.
  - vm_compute. reflexivity.
  - intros Heq.
    apply (f_equal (λ r, view_field r 0 "notes")) in Heq.
    vm_compute in Heq. discriminate.
  - vm_compute. reflexivity.
Qed.

(** ** The scenarios of the specification, on ASCII names *)

Example scenario_empty_store_has_nothing_due :
  due_parts None empty_store ∅ = Ok ([], empty_store, ∅).
Proof. reflexivity. Qed.

Example scenario_oil_filter_due_in_1000 :
  let run :=
    '(s, f) ← add_part oil_filter empty_store ∅;
    '(s, f) ← set_current_mileage 14000 s f;
    due_parts None s f in
  view_field run 0 "due_at_km" = Some (VInt 15000) ∧
  view_field run 0 "remaining_km" = Some (VInt 1000) ∧
  view_field run 1 "name" = None.
Proof. repeat split; vm_compute; reflexivity. Qed.

Example scenario_change_part_ignores_case :
  let run :=
    '(s, f) ← add_part brake_pads empty_store ∅;
    change_part "brake pads" 30000 "" s f in
  fst <$> (fst <$> run) = Ok true ∧
  (outcome_data run ≫= λ doc, entry_field doc "parts" 0 "last_change_km")
    = Some (VInt 30000) ∧
  (outcome_data run ≫= λ doc, entry_field doc "parts" 0 "notes")
    = Some (VStr "front axle").
Proof. repeat split; vm_compute; reflexivity. Qed.

Example scenario_history_newest_first :
  (add_service_records [service_jan; service_feb] empty_store ∅
     ≫= λ '(s, _), py_getitem (data s) "service_history")
  = Ok (VList [VDict (asdict_record service_feb);
               VDict (asdict_record service_jan)]).
Proof. vm_compute. reflexivity. Qed.

Example scenario_ties_keep_stored_order :
  let run := due_parts (Some 20000) sample_store ∅ in
  view_field run 0 "name" = Some (VStr "oil filter") ∧
  view_field run 0 "remaining_km" = Some (VInt (-5000)) ∧
  view_field run 1 "name" = Some (VStr "Brake Pads") ∧
  view_field run 1 "remaining_km" = Some (VInt 10000) ∧
  view_field run 2 "name" = Some (VStr "cabin filter") ∧
  view_field run 2 "remaining_km" = Some (VInt 10000).
Proof. repeat split; vm_compute; reflexivity. Qed.

(** * Further properties of the store *)

(** ** The reference mileage of [due_parts] *)


Lemma insert_sorted_map {K A B} (lt : K → K → bool) (g : K → K) (f : A → B)
    (x : K * A) (l : list (K * A)) :
  (∀ a b, lt (g a) (g b) = lt a b) →
  insert_sorted lt (prod_map g f x) (prod_map g f <$> l)
  = prod_map g f <$> insert_sorted lt x l.
Proof.
  intros Hg. induction l as [|y l IH]; [done|].
  destruct x as [kx x], y as [ky y]. cbn in *. rewrite Hg.
  destruct (lt ky kx); cbn; [|done]. by rewrite <-IH.
Qed.

(** Insertion sort commutes with a change of keys that keeps [<]. *)
Lemma insertion_sort_map {K A B} (lt : K → K → bool) (g : K → K) (f : A → B)
    (l : list (K * A)) :
  (∀ a b, lt (g a) (g b) = lt a b) →
  insertion_sort lt (prod_map g f <$> l)
  = prod_map g f <$> insertion_sort lt l.
Proof.
  intros Hg. induction l as [|x l IH]; [done|].
  cbn. by rewrite IH, insert_sorted_map.
Qed.

Lemma decorate_views (reference : Z) (l : list value) :
  Forall typed_part l →
  decorate remaining_key (view_of reference <$> l)
  = Ok (prod_map (λ k, k - reference) (view_of reference)
          <$> ((λ p, (due_at_of p, p)) <$> l)).
Proof.
  unfold decorate. induction 1 as [|p l Hp _ IH]; [done|].
  cbn. rewrite (remaining_key_view reference p Hp). cbn.
  rewrite IH. reflexivity.
Qed.

Lemma due_parts_at_eval (self : TrackerStore) (fs : filesystem)
    (d : gmap string value) (l : list value) (reference : Z) :
  data self = VDict d →
  d !! "parts" = Some (VList l) →
  Forall typed_part l →
  due_parts (Some reference) self fs
  = Ok (view_of reference <$> by_due_at l, self, fs).
Proof.
  intros Hd Hl Htyped. unfold due_parts. step.
  rewrite (data_getitem self d _ _ Hd Hl). step. cbn [py_iter]. step.
  rewrite (mapM_Ok_fmap _ (view_of reference)); last first.
  { eapply Forall_impl; [exact Htyped|]. apply due_item_typed. }
  step. unfold py_sort. rewrite decorate_views by done. step.
  cbn [sort_decorated]. rewrite insertion_sort_map by (intros; lia).
  unfold by_due_at. by rewrite <-!list_fmap_compose.
Qed.

(** X2.  The order of the due list does not depend on the reference
    mileage: whatever the reference, [due_parts] returns the views of
    the parts taken in ascending order of [due_at_km], parts of equal
    [due_at_km] in stored order. *)
Theorem due_order_fixed (self : TrackerStore) (fs : filesystem)
    (d : gmap string value) (l : list value) :
  data self = VDict d →
  d !! "parts" = Some (VList l) →
  Forall typed_part l →
  by_due_at l ≡ₚ l ∧
  StronglySorted (λ a b, due_at_of a ≤ due_at_of b) (by_due_at l) ∧
  ∀ reference,
    due_parts (Some reference) self fs
    = Ok (view_of reference <$> by_due_at l, self, fs).
Proof.
  intros Hd Hl Htyped. split; [|split].
  - unfold by_due_at. rewrite insertion_sort_Permutation.
    rewrite <-list_fmap_compose. apply reflexive_eq, list_fmap_id.
  - unfold by_due_at.
    pose proof (insertion_sort_StronglySorted Z.ltb Zltb_asym Zleb_trans
                  ((λ p, (due_at_of p, p)) <$> l)) as Hsorted.
    assert (Forall (λ x : Z * value, x.1 = due_at_of x.2)
              (insertion_sort Z.ltb ((λ p, (due_at_of p, p)) <$> l))) as Hkeys.
    { rewrite insertion_sort_Permutation. by apply Forall_fmap, Forall_true. }
    induction Hsorted as [|x k Hk IH Hx]; [constructor|].
    apply Forall_cons in Hkeys as [Hkx Hkeys].
    cbn. constructor; [by apply IH|].
    apply Forall_fmap, Forall_forall. intros y Hy. cbn.
    rewrite Forall_forall in Hx, Hkeys.
    pose proof (Hx y Hy) as Hle. unfold not_after in Hle.
    rewrite <-Hkx, <-(Hkeys y Hy). lia.
  - intros reference. by apply (due_parts_at_eval self fs d l).
Qed.

Lemma due_order_fixed_witness :
  by_due_at sample_parts ≡ₚ sample_parts ∧
  StronglySorted (λ a b, due_at_of a ≤ due_at_of b) (by_due_at sample_parts) ∧
  ∀ reference,
    due_parts (Some reference) sample_store ∅
    = Ok (view_of reference <$> by_due_at sample_parts, sample_store, ∅).
Proof.
  apply (due_order_fixed sample_store ∅ sample_dict sample_parts).
  - reflexivity.
  - reflexivity.
  - repeat constructor; vm_compute; eauto.
Defined.

(** ** Keys the document may lack *)

Lemma data_getitem_missing (self : TrackerStore) (d : gmap string value)
    (key : string) :
  data self = VDict d → d !! key = None →
  py_getitem (data self) key = Raise (KeyError key).
Proof. intros -> Hkey. cbn. by rewrite Hkey. Qed.

(** X3.  Of the three top-level keys only the mileage may be missing: it
    then counts as 0, while without ["parts"] every operation on parts
    raises [KeyError] (so [change_part] does not answer [False]) and
    without ["service_history"] so does [add_service_record]. *)
Theorem missing_top_level_keys `{PyStr} (self : TrackerStore) (fs : filesystem)
    (d : gmap string value) (nm : string) (part : ConsumablePart) (km m : Z)
    (text : string) (record : ServiceRecord) :
  data self = VDict d →
  (d !! "current_mileage_km" = None →
   due_parts None self fs = due_parts (Some 0) self fs) ∧
  (d !! "parts" = None →
   find_part self nm = Raise (KeyError "parts") ∧
   add_part part self fs = Raise (KeyError "parts") ∧
   change_part nm km text self fs = Raise (KeyError "parts") ∧
   due_parts (Some m) self fs = Raise (KeyError "parts")) ∧
  (d !! "service_history" = None →
   add_service_record record self fs = Raise (KeyError "service_history")).
Proof.
  intros Hd. split; [|split].
  - intros Hcm. unfold due_parts, current_mileage. by rewrite Hd, Hcm.
  - intros Hparts.
    pose proof (data_getitem_missing self d "parts" Hd Hparts) as Hget.
    assert (∀ nm', find_part self nm' = Raise (KeyError "parts")) as Hfind.
    { intros nm'. unfold find_part. by rewrite Hget. }
    repeat split.
    + apply Hfind.
    + unfold add_part. by rewrite Hget.
    + unfold change_part. by rewrite Hfind.
    + unfold due_parts. step. by rewrite Hget.
  - intros Hhistory. unfold add_service_record.
    by rewrite (data_getitem_missing self d _ Hd Hhistory).
Qed.

Lemma missing_top_level_keys_witness :
  due_parts None hollow_store ∅ = due_parts (Some 0) hollow_store ∅ ∧
  (find_part hollow_store "oil filter" = Raise (KeyError "parts") ∧
   add_part oil_filter hollow_store ∅ = Raise (KeyError "parts") ∧
   change_part "oil filter" 100 "" hollow_store ∅ = Raise (KeyError "parts") ∧
   due_parts (Some 5) hollow_store ∅ = Raise (KeyError "parts")) ∧
  add_service_record service_jan hollow_store ∅
    = Raise (KeyError "service_history").
Proof.
  destruct (missing_top_level_keys hollow_store ∅ ∅ "oil filter" oil_filter
              100 5 "" service_jan eq_refl) as (Hcm & Hparts & Hhistory).
  split; [|split].
  - apply Hcm. reflexivity.
  - apply Hparts. reflexivity.
  - apply Hhistory. reflexivity.
Defined.

(** ** [find_part] returns the first match *)

Lemma find_part_loop_list_find `{PyStr} (lowered : string) (l : list value)
    (ns : list string) (i : nat) :
  Forall2 part_named l ns →
  find_part_loop lowered l i
  = Ok ((λ hit, (i + hit.1)%nat) <$> list_find (λ s, normalize s = lowered) ns).
Proof.
  intros Hns. revert i. induction Hns as [|v s l ns Hv _ IH]; intros i; [done|].
  cbn. rewrite (norm_name_named v s Hv). step.
  case_decide; cbn.
  - by rewrite Nat.add_0_r.
  - rewrite IH. destruct (list_find _ ns) as [[j s']|]; cbn; [|done].
    do 2 f_equal. lia.
Qed.

(** X4.  On parts that all carry a name, [find_part] returns the position of
    the first part whose normalized name is that of the name asked for,
    and nothing when there is none. *)
Theorem find_part_first_match `{PyStr} (self : TrackerStore)
    (d : gmap string value) (l : list value) (ns : list string) (nm : string) :
  data self = VDict d →
  d !! "parts" = Some (VList l) →
  Forall2 part_named l ns →
  find_part self nm
  = Ok (fst <$> list_find (λ s, normalize s = normalize nm) ns).
Proof.
  intros Hd Hl Hns. rewrite (find_part_eval self d l nm Hd Hl).
  rewrite (find_part_loop_list_find _ l ns 0 Hns).
  by destruct (list_find _ ns) as [[j s']|].
Qed.

Lemma find_part_first_match_witness :
  find_part sample_store "OIL FILTER "
  = Ok (fst <$> list_find (λ s, normalize s = normalize "OIL FILTER ")
                  ["Brake Pads"; "oil filter"; "cabin filter"]).
Proof.
  apply (find_part_first_match sample_store sample_dict sample_parts).
  - reflexivity.
  - reflexivity.
  - repeat constructor; (eexists; split; reflexivity).
Defined.

(** ** What a successful call has done *)

Section inversions.
Context `{PyStr}.
Implicit Types (self : TrackerStore) (fs : filesystem) (l : list value).
Implicit Types (d p q : gmap string value).

(** A successful [add_part] found the first entry of that normalized
    name and merged the new part over it, or found none and appended
    (the case [q = ∅]). *)
Lemma add_part_inv (part : ConsumablePart) self fs self' fs' :
  add_part part self fs = Ok (self', fs') →
  ∃ d l1 q l2,
    data self = VDict d ∧
    Forall (other_name (normalize (name part))) l1 ∧
    self' = {| db_path := db_path self;
               data := VDict (<["parts" :=
                 VList (l1 ++ VDict (asdict_part part ∪ q) :: l2)]> d) |} ∧
    fs' = save self' fs ∧
    ((d !! "parts" = Some (VList (l1 ++ VDict q :: l2)) ∧
      norm_name (VDict q) = Ok (normalize (name part))) ∨
     (d !! "parts" = Some (VList l1) ∧ q = ∅ ∧ l2 = [])).
Proof.
  unfold add_part. intros Hadd.
  apply bind_Ok_inv in Hadd as (parts & (d' & Hd' & Hl')%getitem_inv & Hadd).
  apply bind_Ok_inv in Hadd as (existing & Hfind & Hadd).
  apply bind_Ok_inv in Hadd as (self1 & Hself1 & [= <- <-]).
  apply find_part_inv in Hfind as (d & parts' & l0 & Hd & Hl & Hiter & Hloop).
  assert (parts' = parts) as -> by congruence. clear d' Hd' Hl'.
  destruct existing as [i|].
  - apply bind_Ok_inv in Hself1 as (p & Hp & Hset).
    destruct parts as [| | |l|]; try discriminate.
    injection Hiter as <-. unfold part_at in Hp.
    destruct (l !! i) as [[| | | |p0]|] eqn:Hi; try discriminate.
    injection Hp as ->.
    apply find_part_loop_Some in Hloop as (l1 & x & l2 & -> & -> & Hl1 & Hx).
    rewrite list_lookup_middle in Hi by done. injection Hi as ->.
    rewrite (set_part_at_middle self d) in Hset by done. injection Hset as <-.
    exists d, l1, p, l2. repeat split; [done..|]. by left.
  - unfold append_to in Hself1.
    destruct parts as [| | |l|]; try discriminate.
    injection Hiter as <-.
    rewrite (set_data_dict self d) in Hself1 by done. injection Hself1 as <-.
    apply find_part_loop_None in Hloop.
    exists d, l, ∅, []. rewrite (right_id_L ∅ (∪)).
    repeat split; [done..|]. by right.
Qed.

Lemma change_part_eval (nm : string) (km : Z) (text : string) self fs d p
    (l1 l2 : list value) :
  data self = VDict d →
  d !! "parts" = Some (VList (l1 ++ VDict p :: l2)) →
  Forall (other_name (normalize nm)) l1 →
  norm_name (VDict p) = Ok (normalize nm) →
  change_part nm km text self fs =
    let self' :=
      {| db_path := db_path self;
         data := VDict (<["parts" :=
           VList (l1 ++ VDict (changed_part km text p) :: l2)]> d) |} in
    Ok (true, self', save self' fs).
Proof.
  intros Hd Hl Hl1 Hp. unfold change_part.
  rewrite (find_part_eval self d _ _ Hd Hl).
  assert (find_part_loop (normalize nm) (l1 ++ VDict p :: l2) 0
          = Ok (Some (length l1))) as ->.
  { apply find_part_loop_Some. by exists l1, (VDict p), l2. }
  step. rewrite (data_getitem self d _ _ Hd Hl). step.
  rewrite part_at_middle. step.
  by rewrite (set_part_at_middle self d) by done.
Qed.

(** A successful [change_part] either found nothing and answered
    [False] with everything as it was, or rewrote the first entry of
    that normalized name. *)
Lemma change_part_inv (nm : string) (km : Z) (text : string) self fs
    (b : bool) self' fs' :
  change_part nm km text self fs = Ok (b, self', fs') →
  (b = false ∧ self' = self ∧ fs' = fs) ∨
  (b = true ∧ ∃ d l1 p l2,
    data self = VDict d ∧
    d !! "parts" = Some (VList (l1 ++ VDict p :: l2)) ∧
    Forall (other_name (normalize nm)) l1 ∧
    norm_name (VDict p) = Ok (normalize nm) ∧
    self' = {| db_path := db_path self;
               data := VDict (<["parts" :=
                 VList (l1 ++ VDict (changed_part km text p) :: l2)]> d) |} ∧
    fs' = save self' fs).
Proof.
  unfold change_part. intros Hchange.
  apply bind_Ok_inv in Hchange as (existing & Hfind & Hchange).
  destruct existing as [i|]; [|left; by injection Hchange as <- <- <-].
  right.
  apply find_part_inv in Hfind as (d & parts & l0 & Hd & Hl & Hiter & Hloop).
  rewrite (data_getitem self d _ _ Hd Hl) in Hchange.
  apply bind_Ok_inv in Hchange as (parts' & [= <-] & Hchange).
  apply bind_Ok_inv in Hchange as (p & Hp & Hchange).
  apply bind_Ok_inv in Hchange as (self1 & Hset & [= <- <- <-]).
  destruct parts as [| | |l|]; try discriminate.
  injection Hiter as <-. unfold part_at in Hp.
  destruct (l !! i) as [[| | | |p0]|] eqn:Hi; try discriminate.
  injection Hp as ->.
  apply find_part_loop_Some in Hloop as (l1 & x & l2 & -> & -> & Hl1 & Hx).
  rewrite list_lookup_middle in Hi by done. injection Hi as ->.
  rewrite (set_part_at_middle self d) in Hset by done. injection Hset as <-.
  split; [done|]. by exists d, l1, p, l2.
Qed.

Lemma add_service_record_inv (record : ServiceRecord) self fs self' fs' :
  add_service_record record self fs = Ok (self', fs') →
  ∃ d h h',
    data self = VDict d ∧
    d !! "service_history" = Some (VList h) ∧
    py_sort history_key history_lt true (h ++ [VDict (asdict_record record)])
      = Ok h' ∧
    self' = {| db_path := db_path self;
               data := VDict (<["service_history" := VList h']> d) |} ∧
    fs' = save self' fs.
Proof.
  unfold add_service_record. intros Hadd.
  apply bind_Ok_inv in Hadd as (history & (d & Hd & Hh)%getitem_inv & Hadd).
  destruct history as [| | |h|]; try discriminate.
  apply bind_Ok_inv in Hadd as (h' & Hsort & Hadd).
  apply bind_Ok_inv in Hadd as (self1 & Hset & [= <- <-]).
  rewrite (set_data_dict self d) in Hset by done. injection Hset as <-.
  by exists d, h, h'.
Qed.

Lemma set_current_mileage_inv (km : Z) self fs self' fs' :
  set_current_mileage km self fs = Ok (self', fs') →
  ∃ d,
    data self = VDict d ∧
    self' = {| db_path := db_path self;
               data := VDict (<["current_mileage_km" := VInt km]> d) |} ∧
    fs' = save self' fs.
Proof.
  unfold set_current_mileage, set_data. intros Hset.
  destruct (data self) as [| | | |d]; try discriminate.
  injection Hset as <- <-. by exists d.
Qed.

Lemma norm_name_changed (km : Z) (text : string) p :
  norm_name (VDict (changed_part km text p)) = norm_name (VDict p).
Proof.
  unfold norm_name, changed_part. cbn.
  case_decide; by rewrite ?lookup_insert_ne by done.
Qed.

Lemma changed_part_twice (km : Z) (text : string) p :
  changed_part km text (changed_part km text p) = changed_part km text p.
Proof.
  unfold changed_part. case_decide.
  - by rewrite insert_insert_eq.
  - rewrite (insert_insert_ne _ "last_change_km" "notes") by done.
    by rewrite !insert_insert_eq.
Qed.
End inversions.

(** ** [add_part] and [change_part] together *)



(** X6.  After any successful [add_part], [change_part] under the same name
    succeeds: it answers [True], and the entry then has the new
    [last_change_km], the name and interval of the part added, and the
    new notes or, when these are empty, the notes of the part added.
    The file holds the outcome of the second call. *)
Theorem add_part_then_change `{PyStr} (part : ConsumablePart) (km : Z)
    (text : string) (self : TrackerStore) (fs : filesystem)
    (self1 : TrackerStore) (fs1 : filesystem) :
  add_part part self fs = Ok (self1, fs1) →
  ∃ self2 (i : nat) p,
    change_part (name part) km text self1 fs1 = Ok (true, self2, save self2 fs) ∧
    (parts ← py_getitem (data self2) "parts"; part_at parts i) = Ok p ∧
    p !! "name" = Some (VStr (name part)) ∧
    p !! "interval_km" = Some (VInt (interval_km part)) ∧
    p !! "last_change_km" = Some (VInt km) ∧
    p !! "notes" = Some (VStr (if decide (text = "") then notes part else text)).
Proof.
  intros (d & l1 & q & l2 & Hd & Hl1 & -> & -> & _)%add_part_inv.
  exists {| db_path := db_path self;
            data := VDict (<["parts" := VList
              (l1 ++ VDict (changed_part km text (asdict_part part ∪ q))
               :: l2)]> d) |},
    (length l1), (changed_part km text (asdict_part part ∪ q)).
  split; [|split].
  - erewrite change_part_eval;
      [|reflexivity|apply lookup_insert_eq|done|].
    + cbv zeta. cbn [db_path data]. rewrite insert_insert_eq.
      unfold save. cbn [db_path data]. by rewrite insert_insert_eq.
    + apply norm_name_named, part_named_asdict.
  - cbn [data py_getitem]. rewrite lookup_insert_eq. step.
    apply part_at_middle.
  - assert (∀ k, k ∈ part_fields →
              (asdict_part part ∪ q) !! k = asdict_part part !! k) as Hfields.
    { intros k Hk. by apply lookup_union_l', asdict_part_fields. }
    pose proof (Hfields "name") as Hname.
    pose proof (Hfields "interval_km") as Hinterval.
    pose proof (Hfields "notes") as Hnotes.
    unfold part_fields in *. rewrite !elem_of_cons in *.
    unfold changed_part, asdict_part in *.
    case_decide; simplify_map_eq; rewrite ?Hname, ?Hinterval, ?Hnotes by tauto;
      by simplify_map_eq.
Qed.

Lemma add_part_then_change_witness :
  ∃ self2 (i : nat) p,
    change_part (name oil_filter_renewed) 20000 "" sample_store_renewed
      (save sample_store_renewed ∅) = Ok (true, self2, save self2 ∅) ∧
    (parts ← py_getitem (data self2) "parts"; part_at parts i) = Ok p ∧
    p !! "name" = Some (VStr (name oil_filter_renewed)) ∧
    p !! "interval_km" = Some (VInt (interval_km oil_filter_renewed)) ∧
    p !! "last_change_km" = Some (VInt 20000) ∧
    p !! "notes" = Some (VStr (if decide ("" = "")
                               then notes oil_filter_renewed else "")).
Proof.
  apply (add_part_then_change oil_filter_renewed 20000 "" sample_store ∅
           sample_store_renewed (save sample_store_renewed ∅)).
  vm_compute. reflexivity.
Defined.

(** X7.  Repeating a [change_part] changes nothing more: two identical calls
    in a row end as the first one does, in the answer, the store and
    the files, and when the first call raises. *)
Theorem change_part_idempotent `{PyStr} (nm : string) (km : Z) (text : string)
    (self : TrackerStore) (fs : filesystem) :
  ('(_, self', fs') ← change_part nm km text self fs;
   change_part nm km text self' fs')
  = change_part nm km text self fs.
Proof.
  destruct (change_part nm km text self fs) as [[[b self1] fs1]|e] eqn:Hchange;
    [|done].
  step.
  destruct (change_part_inv _ _ _ _ _ _ _ _ Hchange)
    as [(-> & -> & ->)|(-> & d & l1 & p & l2 & Hd & Hl & Hl1 & Hp & -> & ->)];
    [done|].
  erewrite change_part_eval; [|reflexivity|apply lookup_insert_eq|done|].
  - cbv zeta. cbn [db_path data].
    rewrite changed_part_twice, insert_insert_eq.
    unfold save. cbn [db_path data]. by rewrite insert_insert_eq.
  - by rewrite norm_name_changed.
Qed.

(** ** What a call touches *)

(** X8.  A successful call leaves every top-level key of the document but
    its own as it was: calls on parts never touch the history or the
    mileage, and so on. *)
Theorem call_touches_one_key `{PyStr} (c : call) (self : TrackerStore)
    (fs : filesystem) (self' : TrackerStore) (fs' : filesystem) (key : string) :
  do_call c self fs = Ok (self', fs') →
  key ≠ touched c →
  py_getitem (data self') key = py_getitem (data self) key.
Proof.
  intros Hcall Hkey. destruct c as [km|part|nm km text|record]; cbn in *.
  - apply set_current_mileage_inv in Hcall as (d & -> & -> & _).
    cbn. by rewrite lookup_insert_ne.
  - apply add_part_inv in Hcall as (d & l1 & q & l2 & -> & _ & -> & _).
    cbn. by rewrite lookup_insert_ne.
  - apply bind_Ok_inv in Hcall as ([[b self1] fs1] & Hchange & [= <- <-]).
    destruct (change_part_inv _ _ _ _ _ _ _ _ Hchange)
      as [(_ & -> & _)|(_ & d & l1 & p & l2 & -> & _ & _ & _ & -> & _)];
      [done|].
    cbn. by rewrite lookup_insert_ne.
  - apply add_service_record_inv in Hcall as (d & h & h' & -> & _ & _ & -> & _).
    cbn. by rewrite lookup_insert_ne.
Qed.

Lemma call_touches_one_key_witness :
  py_getitem (data sample_store_renewed) "service_history"
  = py_getitem (data sample_store) "service_history".
Proof.
  apply (call_touches_one_key (AddPart oil_filter_renewed) sample_store ∅
           sample_store_renewed (save sample_store_renewed ∅)).
  - vm_compute. reflexivity.
  - vm_compute. discriminate.
Defined.

(** X9.  A successful call keeps the path of the store and writes no file
    but the store's own, which then holds the document as it is in
    memory; the one call that writes nothing is a [change_part] that
    answered [False], and it changed nothing. *)
Theorem call_writes_own_file `{PyStr} (c : call) (self : TrackerStore)
    (fs : filesystem) (self' : TrackerStore) (fs' : filesystem) :
  do_call c self fs = Ok (self', fs') →
  db_path self' = db_path self ∧
  (∀ path, path ≠ db_path self → fs' !! path = fs !! path) ∧
  (fs' !! db_path self = Some (Json (data self')) ∨
   (self' = self ∧ fs' = fs ∧
    ∃ nm km text, c = ChangePart nm km text ∧
      change_part nm km text self fs = Ok (false, self, fs))).
Proof.
  intros Hcall.
  assert (∀ self1 (P : Prop), db_path self1 = db_path self →
            db_path self1 = db_path self ∧
            (∀ path, path ≠ db_path self → save self1 fs !! path = fs !! path) ∧
            (save self1 fs !! db_path self = Some (Json (data self1)) ∨ P))
    as Hsaved.
  { intros self1 P Hpath. unfold save. rewrite Hpath. split; [done|]. split.
    - intros path Hne. by rewrite lookup_insert_ne.
    - left. by rewrite lookup_insert_eq. }
  destruct c as [km|part|nm km text|record]; cbn in Hcall.
  - apply set_current_mileage_inv in Hcall as (d & _ & -> & ->).
    by apply Hsaved.
  - apply add_part_inv in Hcall as (d & l1 & q & l2 & _ & _ & -> & -> & _).
    by apply Hsaved.
  - apply bind_Ok_inv in Hcall as ([[b self1] fs1] & Hchange & [= <- <-]).
    destruct (change_part_inv _ _ _ _ _ _ _ _ Hchange)
      as [(-> & -> & ->)|(_ & d & l1 & p & l2 & _ & _ & _ & _ & -> & ->)].
    + split; [done|]. split; [done|]. right. eauto 10.
    + by apply Hsaved.
  - apply add_service_record_inv in Hcall as (d & h & h' & _ & _ & _ & -> & ->).
    by apply Hsaved.
Qed.

Lemma call_writes_own_file_witness :
  db_path sample_store_renewed = db_path sample_store ∧
  (∀ path, path ≠ db_path sample_store →
     save sample_store_renewed ∅ !! path = (∅ : filesystem) !! path) ∧
  (save sample_store_renewed ∅ !! db_path sample_store
     = Some (Json (data sample_store_renewed)) ∨
   (sample_store_renewed = sample_store ∧
    save sample_store_renewed ∅ = ∅ ∧
    ∃ nm km text, AddPart oil_filter_renewed = ChangePart nm km text ∧
      change_part nm km text sample_store ∅ = Ok (false, sample_store, ∅))).
Proof.
  apply (call_writes_own_file (AddPart oil_filter_renewed) sample_store ∅
           sample_store_renewed (save sample_store_renewed ∅)).
  vm_compute. reflexivity.
Defined.

(** ** The storage format is kept *)

Section well_formed_facts.
Context `{PyStr}.
Implicit Types (self : TrackerStore) (fs : filesystem) (l : list value).
Implicit Types (d p q : gmap string value).










Lemma history_in_order_ge (a b : value) :
  history_ge a b → in_order history_key history_lt true a b.
Proof.
  intros (ma & da & mb & db & Ha & Hb & Hge).
  exists (ma, da), (mb, db). split; [done|]. split; [done|].
  unfold history_lt. cbn. case_decide; [|lia].
  destruct Hge as [?|[_ ?]]; [lia|done].
Qed.




End well_formed_facts.





(** ** The first call where no file exists *)



(** ** Entries that lack a required key *)

Lemma mapM_Raise {A B} (f : A → result B) (l1 l2 : list A) (v : A) (e : exc) :
  Forall (λ x, ∃ y, f x = Ok y) l1 →
  f v = Raise e →
  mapM f (l1 ++ v :: l2) = Raise e.
Proof.
  intros Hl1 Hv. induction Hl1 as [|x l1 [y Hy] _ IH]; cbn.
  - by rewrite Hv.
  - rewrite Hy. step. by rewrite IH.
Qed.

Lemma decorate_Raise {K} (keyf : value → result K) (l1 l2 : list value)
    (v : value) (e : exc) :
  Forall (λ x, ∃ k, keyf x = Ok k) l1 →
  keyf v = Raise e →
  decorate keyf (l1 ++ v :: l2) = Raise e.
Proof.
  intros Hl1 Hv. unfold decorate. apply mapM_Raise.
  - eapply Forall_impl; [exact Hl1|]. intros x [k Hk]. cbn.
    rewrite Hk. by eexists.
  - cbn. by rewrite Hv.
Qed.

(** X13.  Unlike the optional fields, [mileage_km] and [date] must be there:
    when the first stored record that [list.sort] cannot take a key
    from lacks one of them, [add_service_record] raises [KeyError] for
    it, whatever the record being added. *)
Theorem add_service_record_missing_key (record : ServiceRecord)
    (self : TrackerStore) (fs : filesystem) (d x : gmap string value)
    (h1 h2 : list value) :
  data self = VDict d →
  d !! "service_history" = Some (VList (h1 ++ VDict x :: h2)) →
  Forall (λ y, ∃ k, history_key y = Ok k) h1 →
  (x !! "mileage_km" = None →
   add_service_record record self fs = Raise (KeyError "mileage_km")) ∧
  (is_Some (x !! "mileage_km") → x !! "date" = None →
   add_service_record record self fs = Raise (KeyError "date")).
Proof.
  intros Hd Hh Hh1.
  assert (∀ e, history_key (VDict x) = Raise e →
            add_service_record record self fs = Raise e) as Hraise.
  { intros e Hx. unfold add_service_record.
    rewrite (data_getitem self d _ _ Hd Hh). step.
    unfold py_sort. rewrite <-(assoc_L (++)), <-app_comm_cons.
    by rewrite (decorate_Raise history_key h1 _ (VDict x) e). }
  split.
  - intros Hm. apply Hraise. unfold history_key. cbn. by rewrite Hm.
  - intros [m Hm] Hdate. apply Hraise. unfold history_key. cbn.
    by rewrite Hm, Hdate.
Qed.

Lemma add_service_record_missing_key_witness :
  add_service_record service_feb (torn_store untitled_record ∅) ∅
    = Raise (KeyError "mileage_km") ∧
  add_service_record service_feb (torn_store undated_record ∅) ∅
    = Raise (KeyError "date").
Proof.
  split.
  - apply (add_service_record_missing_key service_feb
             (torn_store untitled_record ∅) ∅ (torn_dict untitled_record ∅)
             untitled_record [VDict (asdict_record service_jan)] []).
    + reflexivity.
    + reflexivity.
    + repeat constructor. eexists. reflexivity.
    + reflexivity.
  - apply (add_service_record_missing_key service_feb
             (torn_store undated_record ∅) ∅ (torn_dict undated_record ∅)
             undated_record [VDict (asdict_record service_jan)] []).
    + reflexivity.
    + reflexivity.
    + repeat constructor. eexists. reflexivity.
    + vm_compute. eauto.
    + reflexivity.
Defined.

(** X14.  [due_parts] needs both mileage fields of every part: when the
    first part it cannot make a view of lacks [last_change_km], or has
    it and lacks [interval_km], it raises [KeyError] for that key and
    returns no view at all. *)
Theorem due_parts_missing_key (self : TrackerStore) (fs : filesystem)
    (at_mileage : option Z) (d p : gmap string value) (l1 l2 : list value)
    (cm : Z) :
  data self = VDict d →
  d !! "parts" = Some (VList (l1 ++ VDict p :: l2)) →
  d !! "current_mileage_km" = Some (VInt cm) →
  Forall typed_part l1 →
  (p !! "last_change_km" = None →
   due_parts at_mileage self fs = Raise (KeyError "last_change_km")) ∧
  (is_Some (p !! "last_change_km") → p !! "interval_km" = None →
   due_parts at_mileage self fs = Raise (KeyError "interval_km")).
Proof.
  intros Hd Hl Hcm Htyped.
  assert (∀ e, (∀ current, due_item current (VDict p) = Raise e) →
            due_parts at_mileage self fs = Raise e) as Hraise.
  { intros e Hp. unfold due_parts, current_mileage. rewrite Hd.
    cbn [py_getitem]. rewrite Hcm, Hl. cbn [default from_option id py_int].
    assert (∀ current,
      mapM (due_item current) (l1 ++ VDict p :: l2) = Raise e) as Hmap.
    { intros current. apply mapM_Raise; [|done].
      eapply Forall_impl; [exact Htyped|]. intros v Hv.
      eexists. by apply due_item_typed. }
    destruct at_mileage; step; cbn [py_iter]; step; by rewrite Hmap. }
  split.
  - intros Hlc. apply Hraise. intros current.
    unfold due_item. cbn. by rewrite Hlc.
  - intros [lc Hlc] Hiv. apply Hraise. intros current.
    unfold due_item. cbn. by rewrite Hlc, Hiv.
Qed.

Lemma due_parts_missing_key_witness :
  due_parts None (torn_store ∅ unnamed_part) ∅
    = Raise (KeyError "last_change_km") ∧
  due_parts (Some 9) (torn_store ∅ open_part) ∅
    = Raise (KeyError "interval_km").
Proof.
  split.
  - apply (due_parts_missing_key (torn_store ∅ unnamed_part) ∅ None
             (torn_dict ∅ unnamed_part) unnamed_part
             [VDict (asdict_part oil_filter)] [] 5).
    + reflexivity.
    + reflexivity.
    + reflexivity.
    + repeat constructor; vm_compute; eauto.
    + reflexivity.
  - apply (due_parts_missing_key (torn_store ∅ open_part) ∅ (Some 9)
             (torn_dict ∅ open_part) open_part
             [VDict (asdict_part oil_filter)] [] 5).
    + reflexivity.
    + reflexivity.
    + reflexivity.
    + repeat constructor; vm_compute; eauto.
    + vm_compute. eauto.
    + reflexivity.
Defined.

(** ** Adding to a sorted history *)

Section insertion_facts.
Context {K A : Type} (lt : K → K → bool).
Implicit Types (x y : K * A) (l : list (K * A)).

Hypothesis le_trans : ∀ a b c,
  lt b a = false → lt c b = false → lt c a = false.



End insertion_facts.






(** ** The order of logging *)

Lemma history_lt_total (a b : Z * string) :
  history_lt a b = false → history_lt b a = false → a = b.
Proof.
  destruct a as [ma da], b as [mb db]. unfold history_lt. cbn.
  repeat case_decide; try lia.
  intros Hab Hba. subst. f_equal. by apply string_ltb_total.
Qed.

Lemma keyed_NoDup_inj {K} (keyf : value → result K) (l : list value)
    (ks : list K) (x1 x2 : value) (k : K) :
  Forall2 (λ x k, keyf x = Ok k) l ks →
  NoDup ks →
  x1 ∈ l → x2 ∈ l →
  keyf x1 = Ok k → keyf x2 = Ok k →
  x1 = x2.
Proof.
  intros Hks Hnodup [i Hi]%list_elem_of_lookup [j Hj]%list_elem_of_lookup H1 H2.
  destruct (Forall2_lookup_l _ _ _ _ _ Hks Hi) as (k1 & Hk1 & Hx1).
  destruct (Forall2_lookup_l _ _ _ _ _ Hks Hj) as (k2 & Hk2 & Hx2).
  assert (k1 = k) as -> by congruence.
  assert (k2 = k) as -> by congruence.
  assert (i = j) as -> by (eapply NoDup_lookup; eauto).
  congruence.
Qed.

(** X16.  Two records of different keys, different also from the keys
    already in a history of pairwise different keys, can be logged in
    either order: store and files end up the same. *)
Theorem add_service_record_commutes (r1 r2 : ServiceRecord)
    (self : TrackerStore) (fs : filesystem) (d : gmap string value)
    (h : list value) (ks : list (Z * string)) :
  data self = VDict d →
  d !! "service_history" = Some (VList h) →
  Forall2 (λ x k, history_key x = Ok k) h ks →
  NoDup (ks ++ [(mileage_km r1, date r1); (mileage_km r2, date r2)]) →
  add_service_records [r1; r2] self fs = add_service_records [r2; r1] self fs.
Proof.
  intros Hd Hh Hks Hnodup.
  assert (Forall (λ x, ∃ k, history_key x = Ok k) h) as Hkeyed.
  { apply Forall_forall. intros x [i Hi]%list_elem_of_lookup.
    destruct (Forall2_lookup_l _ _ _ _ _ Hks Hi) as (k & _ & Hk). eauto. }
  destruct (add_service_records_eval [r1; r2] self fs d h Hd Hh Hkeyed)
    as (h12 & fs12 & -> & _ & Hperm12 & _ & _ & Hcons12).
  destruct (add_service_records_eval [r2; r1] self fs d h Hd Hh Hkeyed)
    as (h21 & fs21 & -> & _ & Hperm21 & _ & _ & Hcons21).
  destruct (Hcons12 ltac:(done)) as [-> Hsorted12].
  destruct (Hcons21 ltac:(done)) as [-> Hsorted21].
  assert (h12 = h21) as ->; [|done].
  apply (StronglySorted_unique_strong
           (in_order history_key history_lt true)); [|done..|].
  - intros x1 x2 Hx1 Hx2 (k1 & k2 & Hk1 & Hk2 & Hlt) (k2' & k1' & Hk2' & Hk1' & Hlt').
    assert (k1' = k1) as -> by congruence.
    assert (k2' = k2) as -> by congruence.
    assert (k1 = k2) as -> by by apply history_lt_total.
    rewrite Hperm12 in Hx1. rewrite Hperm21 in Hx2.
    assert (x2 ∈ h ++ record_values [r1; r2]) as Hx2'.
    { revert Hx2. unfold record_values. cbn. rewrite !elem_of_app, !elem_of_cons.
      tauto. }
    eapply (keyed_NoDup_inj history_key _ _ x1 x2 k2); [|exact Hnodup|done..].
    apply Forall2_app; [done|].
    repeat constructor; apply history_key_asdict.
  - rewrite Hperm12, Hperm21. unfold record_values. cbn.
    apply Permutation_app_head, Permutation_swap.
Qed.

Lemma add_service_record_commutes_witness :
  add_service_records [service_feb; service_mar] sample_store ∅
  = add_service_records [service_mar; service_feb] sample_store ∅.
Proof.
  apply (add_service_record_commutes service_feb service_mar sample_store ∅
           sample_dict [VDict (asdict_record service_jan)]
           [(10000, "2024-01-01")]).
  - reflexivity.
  - reflexivity.
  - repeat constructor.
  - apply (bool_decide_unpack _). vm_compute. exact I.
Defined.

(** With equal keys the order of logging shows: the record logged first
    stays first. *)
Example same_key_keeps_logging_order :
  (add_service_records [service_feb; service_feb_again] empty_store ∅
     ≫= λ '(s, _), py_getitem (data s) "service_history")
  = Ok (VList [VDict (asdict_record service_feb);
               VDict (asdict_record service_feb_again)]) ∧
  (add_service_records [service_feb_again; service_feb] empty_store ∅
     ≫= λ '(s, _), py_getitem (data s) "service_history")
  = Ok (VList [VDict (asdict_record service_feb_again);
               VDict (asdict_record service_feb)]).
Proof. split; vm_compute; reflexivity. Qed.
